(** * Profitability dashboard (app.py): metrics pipeline

    A shallow embedding of the filter -> derive -> aggregate -> insight
    pipeline of [app.py].

    Numbers.  The spreadsheet columns [Sales], [Cost] and [Units] are
    finite numbers and are modelled as exact rationals ([Qc]).  Columns
    produced by a division are NumPy floats and are modelled by [num]:
    a rational, or one of the IEEE special values [+inf], [-inf], [NaN].
    Binary64 rounding and signed zeros are not modelled: arithmetic on
    finite values is exact. *)

From Stdlib Require Import QArith Qcanon Qround ZArith List String Ascii Bool Lia.
From Stdlib Require Import Permutation Sorted.
Import ListNotations.

Open Scope Qc_scope.

(* ------------------------------------------------------------------ *)
(** ** Floats with IEEE special values *)

Inductive num : Type :=
| Fin (q : Qc)
| PInf
| NInf
| NaN.

Definition qz (z : Z) : Qc := Q2Qc (inject_Z z).

Definition qsign (q : Qc) : comparison := q ?= 0.

Definition fneg (x : num) : num :=
  match x with
  | Fin q => Fin (- q)
  | PInf => NInf
  | NInf => PInf
  | NaN => NaN
  end.

Definition fadd (x y : num) : num :=
  match x, y with
  | NaN, _ | _, NaN => NaN
  | Fin a, Fin b => Fin (a + b)
  | PInf, NInf | NInf, PInf => NaN
  | PInf, _ | _, PInf => PInf
  | NInf, _ | _, NInf => NInf
  end.

Definition fsub (x y : num) : num := fadd x (fneg y).

(** Sign of an infinite product or quotient: [s] is the sign of the
    finite operand; a zero finite operand gives [zero]. *)
Definition inf_signed (pos : bool) (s : comparison) (zero : num) : num :=
  match s with
  | Eq => zero
  | Gt => if pos then PInf else NInf
  | Lt => if pos then NInf else PInf
  end.

Definition fmul (x y : num) : num :=
  match x, y with
  | NaN, _ | _, NaN => NaN
  | Fin a, Fin b => Fin (a * b)
  | Fin a, PInf | PInf, Fin a => inf_signed true (qsign a) NaN
  | Fin a, NInf | NInf, Fin a => inf_signed false (qsign a) NaN
  | PInf, PInf | NInf, NInf => PInf
  | PInf, NInf | NInf, PInf => NInf
  end.

(** NumPy division: no exception, [x / 0] is [NaN] or an infinity. *)
Definition fdiv (x y : num) : num :=
  match x, y with
  | NaN, _ | _, NaN => NaN
  | Fin a, Fin b =>
      match qsign b with
      | Eq => inf_signed true (qsign a) NaN
      | _ => Fin (a / b)
      end
  | Fin _, PInf | Fin _, NInf => Fin 0
  | PInf, Fin b => match qsign b with Lt => NInf | _ => PInf end
  | NInf, Fin b => match qsign b with Lt => PInf | _ => NInf end
  | PInf, PInf | PInf, NInf | NInf, PInf | NInf, NInf => NaN
  end.

(** Comparisons: every comparison with [NaN] is false. *)
Definition fltb (x y : num) : bool :=
  match x, y with
  | NaN, _ | _, NaN => false
  | Fin a, Fin b => match a ?= b with Lt => true | _ => false end
  | NInf, NInf | PInf, _ | _, NInf => false
  | NInf, _ | _, PInf => true
  end.

Definition fgtb (x y : num) : bool := fltb y x.

Definition fleb (x y : num) : bool :=
  match x, y with
  | NaN, _ | _, NaN => false
  | Fin a, Fin b => match a ?= b with Gt => false | _ => true end
  | NInf, _ | _, PInf => true
  | PInf, _ | _, NInf => false
  end.

Definition isnan (x : num) : bool :=
  match x with NaN => true | _ => false end.

Definition notna (x : num) : bool := negb (isnan x).

(** [x * 100] as written in the source for every percentage. *)
Definition pct (x : num) : num := fmul x (Fin (qz 100)).

(** Python [int(x)] on a finite float: truncation towards zero. *)
Definition py_int (q : Qc) : Z := Z.quot (Qnum q) (Zpos (Qden q)).

Definition qsum (l : list Qc) : Qc := fold_right Qcplus 0 l.

(** Left-to-right IEEE sum: a [NaN] entry makes the sum [NaN]. *)
Definition fsum (l : list num) : num := fold_left fadd l (Fin 0).

Definition dropna (l : list num) : list num := filter notna l.

(** [Series.sum()]: missing values are skipped, the empty sum is 0. *)
Definition pd_sum (l : list num) : num := fsum (dropna l).

(** [Series.mean()]: missing values are skipped; [NaN] when nothing is
    left. *)
Definition pd_mean (l : list num) : num :=
  match dropna l with
  | [] => NaN
  | ys => fdiv (fsum ys) (Fin (qz (Z.of_nat (List.length ys))))
  end.

(* ------------------------------------------------------------------ *)
(** ** Data model *)

Open Scope string_scope.

(** One line of the spreadsheet.  [Date] is a timestamp on an integer
    time line ([pd.to_datetime] maps both the column and the two ends of
    the selected range onto it). *)
Record Row : Type := mkRow {
  Product_Name : string;
  Division : string;
  Date : Z;
  Sales : Qc;
  Cost : Qc;
  Units : Qc
}.

(** The sidebar widgets. *)
Record Sidebar : Type := mkSidebar {
  date_range : Z * Z;
  division : list string;
  margin_threshold : Qc;
  product_search : string
}.

(* ------------------------------------------------------------------ *)
(** ** [Series.str.contains(pat, case=False)]

    pandas passes [pat] to [re.compile] ([regex=True] is the default)
    with [re.IGNORECASE] and keeps the rows where [search] finds a
    match.  The embedding interprets the patterns built from ordinary
    characters and the wildcard [.]; for a pattern that uses any other
    regular-expression metacharacter [re_compile] answers [None] and the
    pattern is left uninterpreted.  Case folding is that of ASCII
    letters. *)

Inductive re_item : Type :=
| RChar (c : ascii)
| RDot.

Definition is_meta (c : ascii) : bool :=
  existsb (Ascii.eqb c)
    ["."; "^"; "$"; "*"; "+"; "?"; "{"; "}"; "["; "]"; "\"; "|"; "("; ")"]%char.

Fixpoint re_compile (pat : string) : option (list re_item) :=
  match pat with
  | EmptyString => Some []
  | String c pat' =>
      if Ascii.eqb c "."%char then option_map (cons RDot) (re_compile pat')
      else if is_meta c then None
      else option_map (cons (RChar c)) (re_compile pat')
  end.

Definition lower (c : ascii) : ascii :=
  let n := nat_of_ascii c in
  if (65 <=? n)%nat && (n <=? 90)%nat then ascii_of_nat (n + 32) else c.

Definition newline : ascii := ascii_of_nat 10.

Definition item_matches (i : re_item) (c : ascii) : bool :=
  match i with
  | RChar a => Ascii.eqb (lower a) (lower c)
  | RDot => negb (Ascii.eqb c newline)
  end.

Fixpoint match_here (p : list re_item) (s : string) : bool :=
  match p, s with
  | [], _ => true
  | _ :: _, EmptyString => false
  | i :: p', String c s' => item_matches i c && match_here p' s'
  end.

Fixpoint re_search (p : list re_item) (s : string) : bool :=
  match_here p s ||
  match s with
  | EmptyString => false
  | String _ s' => re_search p s'
  end.

Definition str_contains (pat s : string) : option bool :=
  option_map (fun p => re_search p s) (re_compile pat).

(* ------------------------------------------------------------------ *)
(** ** Filters (the APPLY FILTERS block) *)

Definition isin (x : string) (l : list string) : bool :=
  existsb (String.eqb x) l.

Definition in_date_range (rng : Z * Z) (r : Row) : bool :=
  (fst rng <=? Date r)%Z && (Date r <=? snd rng)%Z.

(** Truth value of a Python string: the empty string is false. *)
Definition truthy (s : string) : bool :=
  match s with EmptyString => false | _ => true end.

Definition apply_filters (df : list Row) (sb : Sidebar) : option (list Row) :=
  let by_date := filter (in_date_range (date_range sb)) df in
  let by_div := filter (fun r => isin (Division r) (division sb)) by_date in
  if truthy (product_search sb) then
    match re_compile (product_search sb) with
    | Some p => Some (filter (fun r => re_search p (Product_Name r)) by_div)
    | None => None
    end
  else Some by_div.

(* ------------------------------------------------------------------ *)
(** ** KPI calculations *)

Definition gross_profit (r : Row) : Qc := Sales r - Cost r.

Definition gross_margin (r : Row) : num :=
  pct (fdiv (Fin (gross_profit r)) (Fin (Sales r))).

Definition profit_per_unit (r : Row) : num :=
  fdiv (Fin (gross_profit r)) (Fin (Units r)).

Definition total_sales (rows : list Row) : Qc := qsum (map Sales rows).

Definition total_profit (rows : list Row) : Qc := qsum (map gross_profit rows).

Definition revenue_contribution (rows : list Row) (r : Row) : num :=
  pct (fdiv (Fin (Sales r)) (Fin (total_sales rows))).

Definition profit_contribution (rows : list Row) (r : Row) : num :=
  pct (fdiv (Fin (gross_profit r)) (Fin (total_profit rows))).

Definition risk_level (threshold : Qc) (x : num) : string :=
  if fltb x (Fin threshold) then "High Risk" else "Safe".

(** A line of [filtered_df] once the derived columns are in place. *)
Record DRow : Type := mkDRow {
  base : Row;
  Gross_Profit : Qc;
  Gross_Margin : num;
  Profit_per_Unit : num;
  Revenue_Contribution : num;
  Profit_Contribution : num;
  Risk_Level : string
}.

Definition derive_row (rows : list Row) (threshold : Qc) (r : Row) : DRow :=
  {| base := r;
     Gross_Profit := gross_profit r;
     Gross_Margin := gross_margin r;
     Profit_per_Unit := profit_per_unit r;
     Revenue_Contribution := revenue_contribution rows r;
     Profit_Contribution := profit_contribution rows r;
     Risk_Level := risk_level threshold (gross_margin r) |}.

Definition derive (rows : list Row) (threshold : Qc) : list DRow :=
  map (derive_row rows threshold) rows.

Definition name_of (d : DRow) : string := Product_Name (base d).
Definition division_of (d : DRow) : string := Division (base d).
Definition sales_of (d : DRow) : Qc := Sales (base d).

(* ------------------------------------------------------------------ *)
(** ** Exceptions *)

Inductive exn : Type := ValueError.

Inductive result (A : Type) : Type :=
| Ok (a : A)
| Raise (e : exn).

Arguments Ok {A} a.
Arguments Raise {A} e.

Definition bind {A B : Type} (m : result A) (k : A -> result B) : result B :=
  match m with
  | Ok a => k a
  | Raise e => Raise e
  end.

Notation "x <- m ;; k" := (bind m (fun x => k))
  (at level 61, m at next level, right associativity).

(* ------------------------------------------------------------------ *)
(** ** Sorting and grouping *)

Section Sort.
Context {A : Type} (le : A -> A -> bool).

Fixpoint insert (x : A) (l : list A) : list A :=
  match l with
  | [] => [x]
  | y :: t => if le x y then x :: l else y :: insert x t
  end.

(** Stable: among equal elements the earlier one stays first. *)
Definition isort (l : list A) : list A := fold_right insert [] l.
End Sort.

Definition qleb (a b : Qc) : bool :=
  match (a ?= b)%Qc with Gt => false | _ => true end.

Definition qltb (a b : Qc) : bool :=
  match (a ?= b)%Qc with Lt => true | _ => false end.

(** The distinct keys in the order [groupby] lists them (sorted). *)
Definition group_keys (l : list string) : list string :=
  isort String.leb (nodup string_dec l).

(** [df.groupby(key)]: one group per distinct key, the lines of a group
    in their original order. *)
Definition groupby {A : Type} (key : A -> string) (rows : list A)
  : list (string * list A) :=
  map (fun k => (k, filter (fun r => String.eqb (key r) k) rows))
      (group_keys (map key rows)).

(** A [Series] indexed by the group key. *)
Definition agg {A B : Type} (f : list A -> B) (g : list (string * list A))
  : list (string * B) :=
  map (fun kg => (fst kg, f (snd kg))) g.

(** [sort_values(ascending=False)]: pandas reverses the values, sorts
    them in ascending order and reverses the outcome.  The sort below is
    stable; NumPy's default quicksort does not promise an order among
    equal values, and nothing proved here depends on it. *)
Definition sort_values_desc (l : list (string * Qc)) : list (string * Qc) :=
  rev (isort (fun a b => qleb (snd a) (snd b)) (rev l)).

Fixpoint idxmax_from (best : string * Qc) (l : list (string * Qc)) : string :=
  match l with
  | [] => fst best
  | kv :: t => if qltb (snd best) (snd kv) then idxmax_from kv t
               else idxmax_from best t
  end.

(** [Series.idxmax()]: label of the first maximum; [ValueError] on an
    empty series. *)
Definition idxmax (l : list (string * Qc)) : result string :=
  match l with
  | [] => Raise ValueError
  | kv :: t => Ok (idxmax_from kv t)
  end.

Fixpoint idxmin_from (best : string * num) (l : list (string * num)) : string :=
  match l with
  | [] => fst best
  | kv :: t => if fltb (snd kv) (snd best) then idxmin_from kv t
               else idxmin_from best t
  end.

(** How [nanargmin] reads a missing value. *)
Definition fill_inf (x : num) : num :=
  match x with
  | NaN => PInf
  | _ => x
  end.

Definition fill_entry (kv : string * num) : string * num :=
  (fst kv, fill_inf (snd kv)).

(** [Series.idxmin()]: pandas replaces the missing values by [+inf] and
    answers the label of the first minimum.  [ValueError] on an empty
    series and when every value is missing (pandas 3; earlier versions
    answered NaN with a warning in that case). *)
Definition idxmin (l : list (string * num)) : result string :=
  match map fill_entry l with
  | [] => Raise ValueError
  | kv :: t =>
      if forallb (fun e => isnan (snd e)) l then Raise ValueError
      else Ok (idxmin_from kv t)
  end.

(** [Series.median()]: missing values are skipped; the middle value, or
    the mean of the two middle values. *)
Definition pd_median (l : list num) : num :=
  let ys := isort fleb (dropna l) in
  let n := List.length ys in
  if (n =? 0)%nat then NaN
  else if Nat.odd n then nth (n / 2) ys NaN
  else fdiv (fadd (nth (n / 2 - 1) ys NaN) (nth (n / 2) ys NaN)) (Fin (qz 2)).

Definition head {A : Type} (n : Z) (l : list A) : list A :=
  firstn (Z.to_nat n) l.

Definition len {A : Type} (l : list A) : Qc := qz (Z.of_nat (List.length l)).

(** The float literal [0.2]. *)
Definition one_fifth : Qc := Q2Qc (2 # 10).

(* ------------------------------------------------------------------ *)
(** ** Profit ranking and concentration *)

Definition group_profit (g : list DRow) : Qc := qsum (map Gross_Profit g).

(** [groupby("Product Name")["Gross Profit"].sum().sort_values(ascending=False)] *)
Definition profit_summary (fd : list DRow) : list (string * Qc) :=
  sort_values_desc (agg group_profit (groupby name_of fd)).

Definition share (part whole : Qc) : num := pct (fdiv (Fin part) (Fin whole)).

(** AUTOMATED INSIGHTS: [max(1, int(len(profit_summary) * 0.2))]. *)
Definition insight_top_20_count (ranking : list (string * Qc)) : Z :=
  Z.max 1 (py_int (len ranking * one_fifth)).

Definition dependency_ratio_of (ranking : list (string * Qc)) : num :=
  share (qsum (map snd (head (insight_top_20_count ranking) ranking)))
        (qsum (map snd ranking)).

(** TAB 4: [int(len(pareto) * 0.2)]. *)
Definition pareto_top_20_count (ranking : list (string * Qc)) : Z :=
  py_int (len ranking * one_fifth).

Definition top_20_profit_share_of (ranking : list (string * Qc)) : num :=
  share (qsum (map snd (head (pareto_top_20_count ranking) ranking)))
        (qsum (map snd ranking)).

Record ParetoEntry : Type := mkPareto {
  pe_Product_Name : string;
  pe_Gross_Profit : Qc;
  pe_Cumulative_Profit : Qc;
  pe_Cumulative_pct : num
}.

(** [cumsum], carrying the running total [acc]. *)
Fixpoint cumsum_from (acc : Qc) (l : list Qc) : list Qc :=
  match l with
  | [] => []
  | x :: t => (acc + x) :: cumsum_from (acc + x) t
  end.

Definition cumsum (l : list Qc) : list Qc := cumsum_from 0 l.

Definition pareto (fd : list DRow) : list ParetoEntry :=
  let ranking := profit_summary fd in
  let total := qsum (map snd ranking) in
  map (fun kc => {| pe_Product_Name := fst (fst kc);
                    pe_Gross_Profit := snd (fst kc);
                    pe_Cumulative_Profit := snd kc;
                    pe_Cumulative_pct := share (snd kc) total |})
      (combine ranking (cumsum (map snd ranking))).

(* ------------------------------------------------------------------ *)
(** ** Summaries that do not involve the standard deviation *)

Definition margins (g : list DRow) : list num := map Gross_Margin g.

Record DivisionSummary : Type := mkDivisionSummary {
  ds_Division : string;
  ds_Sales : Qc;
  ds_Gross_Profit : Qc;
  ds_Gross_Margin : num
}.

(** TAB 2: [groupby("Division").agg({sum, sum, mean})]. *)
Definition division_summary (fd : list DRow) : list DivisionSummary :=
  map (fun kg => {| ds_Division := fst kg;
                    ds_Sales := qsum (map sales_of (snd kg));
                    ds_Gross_Profit := group_profit (snd kg);
                    ds_Gross_Margin := pd_mean (margins (snd kg)) |})
      (groupby division_of fd).

Definition best_division_of (fd : list DRow) : result string :=
  idxmax (agg group_profit (groupby division_of fd)).

Definition worst_margin_product_of (fd : list DRow) : result string :=
  idxmin (agg (fun g => pd_mean (margins g)) (groupby name_of fd)).

(** [filtered_df[Risk Level == "High Risk"]["Product Name"].nunique()] *)
Definition high_risk_count_of (fd : list DRow) : nat :=
  List.length
    (nodup string_dec
       (map name_of
          (filter (fun d => String.eqb (Risk_Level d) "High Risk") fd))).

(** Left merge on the product name; a name without partner gets NaN. *)
Fixpoint merge_lookup (k : string) (t : list (string * num)) : num :=
  match t with
  | [] => NaN
  | (k', v) :: t' => if String.eqb k k' then v else merge_lookup k t'
  end.

Definition volatility_risk (median_vol x : num) : string :=
  if fgtb x median_vol then "High Volatility" else "Stable".

Record ProductSummary : Type := mkProductSummary {
  ps_Product_Name : string;
  ps_Sales : Qc;
  ps_Gross_Profit : Qc;
  ps_Gross_Margin : num;
  ps_Profit_Contribution : num;
  ps_Margin_Volatility : num;
  ps_Volatility_Risk : string
}.

Record Insights : Type := mkInsights {
  best_division : string;
  worst_margin_product : string;
  high_risk_count : nat;
  dependency_ratio : num;
  avg_volatility : num;
  concentration_warning : bool;
  instability_warning : bool
}.

(** What the AUTOMATED INSIGHTS block shows: the warning box of its
    [else] branch, or the insight text. *)
Inductive InsightBox : Type :=
| NoData
| InsightText (i : Insights).

(** TAB 3: the scatter plot takes the Gross Profit column as marker
    size, and plotly refuses a negative size with [ValueError]. *)
Definition tab3_scatter (fd : list DRow) : result unit :=
  if existsb (fun d => qltb (Gross_Profit d) 0) fd then Raise ValueError
  else Ok tt.

Record Dashboard : Type := mkDashboard {
  filtered_df : list DRow;
  kpi_total_sales : Qc;
  kpi_total_profit : Qc;
  kpi_average_margin : num;
  insight_box : InsightBox;
  tab1_product_summary : list ProductSummary;
  tab1_median_vol : num;
  tab2_division_summary : list DivisionSummary;
  tab4_pareto : list ParetoEntry;
  tab4_top_20_profit_share : num
}.

(* ------------------------------------------------------------------ *)
(** ** Standard deviation, volatility and the whole script

    The square root of a rational is not a rational in general: the
    root of finite non-negative values is a parameter [sqrt_q], and
    every statement below holds whatever it is. *)

Section WithSqrt.
Variable sqrt_q : Qc -> Qc.

Definition fsqrt (x : num) : num :=
  match x with
  | Fin q => match qsign q with Lt => NaN | _ => Fin (sqrt_q q) end
  | PInf => PInf
  | NInf | NaN => NaN
  end.

(** [std()] with [ddof=1]: missing values are skipped, and fewer than
    two values give NaN. *)
Definition pd_std (l : list num) : num :=
  let ys := dropna l in
  let n := List.length ys in
  if (n <=? 1)%nat then NaN
  else
    let m := fdiv (fsum ys) (Fin (qz (Z.of_nat n))) in
    let sq := map (fun y => fmul (fsub y m) (fsub y m)) ys in
    fsqrt (fdiv (fsum sq) (Fin (qz (Z.of_nat (n - 1))))).

(** [groupby("Product Name")["Gross Margin (%)"].std()] *)
Definition volatility (fd : list DRow) : list (string * num) :=
  agg (fun g => pd_std (margins g)) (groupby name_of fd).

(** TAB 1 before the volatility columns are merged in. *)
Definition product_totals (fd : list DRow) : list (string * list DRow) :=
  groupby name_of fd.

Definition margin_volatility_column (fd : list DRow) : list num :=
  map (fun kg => merge_lookup (fst kg) (volatility fd)) (product_totals fd).

Definition median_vol (fd : list DRow) : num :=
  pd_median (margin_volatility_column fd).

Definition product_summary (fd : list DRow) : list ProductSummary :=
  let groups := product_totals fd in
  let grand := qsum (map (fun kg => group_profit (snd kg)) groups) in
  map (fun kg =>
         let vol := merge_lookup (fst kg) (volatility fd) in
         {| ps_Product_Name := fst kg;
            ps_Sales := qsum (map sales_of (snd kg));
            ps_Gross_Profit := group_profit (snd kg);
            ps_Gross_Margin := pd_mean (margins (snd kg));
            ps_Profit_Contribution := share (group_profit (snd kg)) grand;
            ps_Margin_Volatility := vol;
            ps_Volatility_Risk := volatility_risk (median_vol fd) vol |})
      groups.

Definition avg_volatility_of (fd : list DRow) : num :=
  pd_mean (map snd (volatility fd)).

(** The AUTOMATED INSIGHTS block. *)
Definition automated_insights (fd : list DRow) : result InsightBox :=
  match fd with
  | [] => Ok NoData
  | _ :: _ =>
      best <- best_division_of fd ;;
      worst <- worst_margin_product_of fd ;;
      let ratio := dependency_ratio_of (profit_summary fd) in
      let avg := avg_volatility_of fd in
      Ok (InsightText {| best_division := best;
                  worst_margin_product := worst;
                  high_risk_count := high_risk_count_of fd;
                  dependency_ratio := ratio;
                  avg_volatility := avg;
                  concentration_warning := fgtb ratio (Fin (qz 70));
                  instability_warning :=
                    fgtb avg (pd_std (margins fd)) |})
  end.

(** Everything the script computes from an already filtered frame, in
    the order of the script: an exception of the insight block or of
    TAB 3 ends the run, and TAB 4 is not reached. *)
Definition render (rows : list Row) (threshold : Qc) : result Dashboard :=
  let fd := derive rows threshold in
  box <- automated_insights fd ;;
  _ <- tab3_scatter fd ;;
  Ok {| filtered_df := fd;
        kpi_total_sales := total_sales rows;
        kpi_total_profit := total_profit rows;
        kpi_average_margin := pd_mean (margins fd);
        insight_box := box;
        tab1_product_summary := product_summary fd;
        tab1_median_vol := median_vol fd;
        tab2_division_summary := division_summary fd;
        tab4_pareto := pareto fd;
        tab4_top_20_profit_share :=
          top_20_profit_share_of (profit_summary fd) |}.

(** The script from the loaded frame and the sidebar.  [None]: the
    search pattern is outside the interpreted fragment. *)
Definition app (df : list Row) (sb : Sidebar) : option (result Dashboard) :=
  option_map (fun rows => render rows (margin_threshold sb))
             (apply_filters df sb).

End WithSqrt.

(** A square root that is exact on squares of rationals, for running
    the script on concrete frames. *)
Definition sqrt_floor (q : Qc) : Qc :=
  Q2Qc (Qmake (Z.sqrt (Qnum q)) (Pos.sqrt (Qden q))).

(* ------------------------------------------------------------------ *)
(** ** Columns and quantities the statements speak about *)

Definition revenue_contributions (rows : list Row) (threshold : Qc) : list num :=
  map Revenue_Contribution (derive rows threshold).

Definition profit_contributions (rows : list Row) (threshold : Qc) : list num :=
  map Profit_Contribution (derive rows threshold).

(** What the script shows when no line passes the filters. *)
Definition empty_dashboard : Dashboard :=
  {| filtered_df := [];
     kpi_total_sales := 0;
     kpi_total_profit := 0;
     kpi_average_margin := NaN;
     insight_box := NoData;
     tab1_product_summary := [];
     tab1_median_vol := NaN;
     tab2_division_summary := [];
     tab4_pareto := [];
     tab4_top_20_profit_share := NaN |}.

(** Consecutive entries compare [<=]. *)
Fixpoint nondecreasing (l : list num) : bool :=
  match l with
  | x :: ((y :: _) as t) => fleb x y && nondecreasing t
  | _ => true
  end.

(** The [Cumulative %] column of TAB 4. *)
Definition cumulative_pct (fd : list DRow) : list num :=
  map pe_Cumulative_pct (pareto fd).

(** The top-fraction share as the specification words it: the first
    [ceil(0.2 * N)] entries of the ranking, as a percentage of the
    total. *)
Definition spec_top_count (n : nat) : Z :=
  Qceiling (this (qz (Z.of_nat n) * one_fifth)).

Definition spec_top_fraction_share (ranking : list (string * Qc)) : num :=
  share (qsum (map snd (head (spec_top_count (List.length ranking)) ranking)))
        (qsum (map snd ranking)).

Fixpoint lower_string (s : string) : string :=
  match s with
  | EmptyString => EmptyString
  | String c s' => String (lower c) (lower_string s')
  end.

(** Case-insensitive substring match, as the specification words the
    text predicate. *)
Definition ci_substring (needle hay : string) : Prop :=
  exists pre post, lower_string hay = pre ++ lower_string needle ++ post.

(** The search string has no regular-expression metacharacter. *)
Fixpoint no_meta (s : string) : bool :=
  match s with
  | EmptyString => true
  | String c s' => negb (is_meta c) && no_meta s'
  end.

(** The pattern that matches the characters of [s] one by one. *)
Fixpoint literal (s : string) : list re_item :=
  match s with
  | EmptyString => []
  | String c s' => RChar c :: literal s'
  end.

(** The lines of one product. *)
Definition group_of (fd : list DRow) (k : string) : list DRow :=
  filter (fun d => String.eqb (name_of d) k) fd.


(* ------------------------------------------------------------------ *)
(** ** Concrete frames *)

(** The three-line frame of the worked example. *)
Definition ex_rows : list Row :=
  [ mkRow "ProductA" "DivX" 1 (qz 100) (qz 60) (qz 10);
    mkRow "ProductB" "DivX" 2 (qz 200) (qz 50) (qz 20);
    mkRow "ProductA" "DivY" 3 (qz 50) (qz 50) (qz 5) ].

(** A line that sold nothing and cost nothing. *)
Definition zero_row : Row := mkRow "ProductZ" "DivX" 1 0 0 (qz 1).

(** The sidebar left at values that keep every line of [ex_rows]. *)
Definition ex_sb : Sidebar :=
  mkSidebar (1, 3)%Z ["DivX"; "DivY"] (qz 10) "".

(** A date range whose start lies after its end. *)
Definition reversed_sb : Sidebar :=
  mkSidebar (3, 1)%Z ["DivX"; "DivY"] (qz 10) "".

(** One profitable product and one sold at a loss. *)
Definition loss_rows : list Row :=
  [ mkRow "ProductA" "DivX" 1 (qz 10) 0 (qz 1);
    mkRow "ProductB" "DivX" 1 (qz 5) (qz 10) (qz 1) ].

Definition six_rows : list Row :=
  map (fun n => mkRow n "DivX" 1 (qz 10) 0 (qz 1))
      ["P1"; "P2"; "P3"; "P4"; "P5"; "P6"].

(** A search string that is not plain text. *)
Definition dot_sb : Sidebar :=
  mkSidebar (1, 3)%Z ["DivX"; "DivY"] (qz 10) ".".

(** A plain search string, in another case than the product names. *)
Definition search_sb : Sidebar :=
  mkSidebar (1, 3)%Z ["DivX"; "DivY"] (qz 10) "DUCTa".

(** Product C with margins 0, 30 and 60 (deviation 30), product D with
    margins 0, 10 and 20 (deviation 10), and a product with a single
    line. *)
Definition vol_rows : list Row :=
  [ mkRow "C" "DivX" 1 (qz 100) (qz 100) (qz 1);
    mkRow "C" "DivX" 2 (qz 100) (qz 70) (qz 1);
    mkRow "C" "DivY" 3 (qz 100) (qz 40) (qz 1);
    mkRow "D" "DivX" 1 (qz 100) (qz 100) (qz 1);
    mkRow "D" "DivX" 2 (qz 100) (qz 90) (qz 1);
    mkRow "D" "DivY" 3 (qz 100) (qz 80) (qz 1);
    mkRow "Single" "DivY" 2 (qz 100) (qz 50) (qz 1) ].

(* ------------------------------------------------------------------ *)
(** ** Further quantities and frames *)

(** The three selections of the APPLY FILTERS block as one test, for a
    compiled search pattern [p]. *)
Definition passes (sb : Sidebar) (p : list re_item) (r : Row) : bool :=
  in_date_range (date_range sb) r
  && isin (Division r) (division sb)
  && (if truthy (product_search sb) then re_search p (Product_Name r)
      else true).

(** [search_sb] with the search string in another case. *)
Definition search_sb_lower : Sidebar :=
  mkSidebar (1, 3)%Z ["DivX"; "DivY"] (qz 10) "ducta".

(** No division selected. *)
Definition no_division_sb : Sidebar :=
  mkSidebar (1, 3)%Z [] (qz 10) "".

(** Mean margin of one product, as the insight block averages it. *)
Definition mean_margin (fd : list DRow) (k : string) : num :=
  pd_mean (margins (group_of fd k)).

(** Summed Gross Profit of one division. *)
Definition division_profit (fd : list DRow) (k : string) : Qc :=
  group_profit (filter (fun d => String.eqb (division_of d) k) fd).

(** A line sold at a loss, and a line with cost but no sales. *)
Definition loss_row : Row := mkRow "ProductL" "DivX" 1 (qz 5) (qz 10) (qz 1).
Definition unsold_row : Row := mkRow "ProductU" "DivX" 1 0 (qz 10) (qz 1).

(** A frame with a single product. *)
Definition one_product_rows : list Row :=
  [ mkRow "Solo" "DivX" 1 (qz 100) (qz 60) (qz 10);
    mkRow "Solo" "DivY" 2 (qz 50) (qz 20) (qz 5) ].

(** [ex_sb] with only one division selected. *)
Definition divx_sb : Sidebar :=
  mkSidebar (1, 3)%Z ["DivX"] (qz 10) "".


(** Two products sold at cost: no line has a negative Gross Profit and
    the total Gross Profit is zero. *)
Definition zero_total_rows : list Row :=
  [ mkRow "ProductA" "DivX" 1 (qz 50) (qz 50) (qz 5);
    mkRow "ProductB" "DivX" 2 (qz 20) (qz 20) (qz 2) ].

(* ------------------------------------------------------------------ *)
(** ** Tactics for concrete frames *)

Ltac qc_compute := apply Qc_is_canon; vm_compute; reflexivity.

(** Equality of computed columns, entry by entry. *)
Ltac column_compute :=
  vm_compute;
  repeat lazymatch goal with
  | |- @eq Qc _ _ => apply Qc_is_canon; reflexivity
  | |- @eq (list _) (_ :: _) (_ :: _) => apply f_equal2
  | |- @eq num (Fin _) (Fin _) => apply f_equal
  | |- _ => reflexivity
  end.

(* ------------------------------------------------------------------ *)
(** ** Arithmetic facts *)

Lemma qsign_eq (q : Qc) : qsign q = Eq <-> q = 0.
Proof. unfold qsign. symmetry. apply Qceq_alt. Qed.

Lemma qsign_refl_zero : qsign 0 = Eq.
Proof. apply qsign_eq. reflexivity. Qed.

Lemma fdiv_fin (a b : Qc) : b <> 0 -> fdiv (Fin a) (Fin b) = Fin (a / b).
Proof.
  intros Hb. unfold fdiv.
  destruct (qsign b) eqn:E; try reflexivity.
  apply qsign_eq in E. contradiction.
Qed.

Lemma fdiv_zero_zero : fdiv (Fin 0) (Fin 0) = NaN.
Proof. unfold fdiv. rewrite qsign_refl_zero. reflexivity. Qed.

Lemma pct_fin (q : Qc) : pct (Fin q) = Fin (q * qz 100).
Proof. reflexivity. Qed.

Lemma share_fin (a b : Qc) : b <> 0 -> share a b = Fin (a / b * qz 100).
Proof. intros Hb. unfold share. rewrite fdiv_fin by assumption. reflexivity. Qed.

Lemma fltb_nan_l (y : num) : fltb NaN y = false.
Proof. reflexivity. Qed.

Lemma fltb_nan_r (x : num) : fltb x NaN = false.
Proof. destruct x; reflexivity. Qed.

Lemma fltb_fin (a b : Qc) : fltb (Fin a) (Fin b) = true <-> a < b.
Proof.
  simpl. split.
  - intros H. apply Qclt_alt. destruct (a ?= b)%Qc; discriminate || reflexivity.
  - intros H. pose proof (proj1 (Qclt_alt a b) H) as H'. rewrite H'. reflexivity.
Qed.

Lemma fltb_fin_false (a b : Qc) : fltb (Fin a) (Fin b) = false <-> b <= a.
Proof.
  split.
  - intros H. apply Qcnot_lt_le. intros Hlt. apply fltb_fin in Hlt. congruence.
  - intros H. destruct (fltb (Fin a) (Fin b)) eqn:E; [| reflexivity].
    apply fltb_fin in E. exfalso. apply (Qcle_not_lt _ _ H E).
Qed.

Lemma qsum_app (l1 l2 : list Qc) : qsum (l1 ++ l2) = qsum l1 + qsum l2.
Proof.
  induction l1 as [|x l1 IH]; simpl.
  - ring.
  - rewrite IH. ring.
Qed.

Lemma fold_fadd_fin (l : list Qc) (a : Qc) :
  fold_left fadd (map Fin l) (Fin a) = Fin (a + qsum l).
Proof.
  revert a. induction l as [|x l IH]; intros a; simpl.
  - f_equal. ring.
  - rewrite IH. f_equal. ring.
Qed.

Lemma fsum_fin (l : list Qc) : fsum (map Fin l) = Fin (qsum l).
Proof. unfold fsum. rewrite fold_fadd_fin. f_equal. ring. Qed.

Lemma qsum_scale (A : Type) (f : A -> Qc) (c : Qc) (l : list A) :
  qsum (map (fun x => f x * c) l) = qsum (map f l) * c.
Proof.
  induction l as [|x l IH]; simpl.
  - ring.
  - rewrite IH. ring.
Qed.

(** Percentages of a non-zero total add up to 100. *)
Lemma shares_sum_to_100 (A : Type) (f : A -> Qc) (l : list A) :
  qsum (map f l) <> 0 ->
  fsum (map (fun x => share (f x) (qsum (map f l))) l) = Fin (qz 100).
Proof.
  intros HT.
  set (T := qsum (map f l)) in *.
  rewrite (map_ext _ (fun x => Fin (f x * (/ T * qz 100)))).
  2:{ intros x. rewrite share_fin by assumption. f_equal. unfold Qcdiv. ring. }
  rewrite <- (map_map (fun x => f x * (/ T * qz 100)) Fin).
  rewrite fsum_fin, qsum_scale. fold T.
  f_equal. field. assumption.
Qed.


(* ------------------------------------------------------------------ *)
(** ** Undefined margin and the risk label *)

(** C10: a line with Sales = 0 and Cost = 0 has the undefined margin
    (NaN), and for every threshold its risk label is "Safe": the test
    [x < margin_threshold] is false on NaN, so the line is never among
    the "High Risk" lines. *)
Theorem zero_sales_zero_cost_is_safe (r : Row) (threshold : Qc) (rows : list Row) :
  Sales r = 0 -> Cost r = 0 ->
  gross_margin r = NaN /\
  risk_level threshold (gross_margin r) = "Safe" /\
  Gross_Margin (derive_row rows threshold r) = NaN /\
  Risk_Level (derive_row rows threshold r) = "Safe" /\
  String.eqb (Risk_Level (derive_row rows threshold r)) "High Risk" = false.
Proof.
  intros Hs Hc.
  assert (Hm : gross_margin r = NaN).
  { unfold gross_margin, gross_profit. rewrite Hs, Hc.
    replace (0 - 0) with 0 by ring.
    rewrite fdiv_zero_zero. reflexivity. }
  assert (Hr : risk_level threshold (gross_margin r) = "Safe").
  { rewrite Hm. reflexivity. }
  simpl. rewrite Hr. repeat split; assumption || reflexivity.
Qed.

Lemma zero_sales_zero_cost_is_safe_witness :
  Sales zero_row = 0 /\ Cost zero_row = 0 /\
  Risk_Level (derive_row [zero_row] (qz 10) zero_row) = "Safe".
Proof.
  split; [reflexivity | split; [reflexivity |]].
  apply (zero_sales_zero_cost_is_safe zero_row (qz 10) [zero_row]); reflexivity.
Defined.

(* ------------------------------------------------------------------ *)
(** ** Contribution percentages *)

Lemma revenue_contributions_eq rows threshold :
  revenue_contributions rows threshold =
  map (fun r => share (Sales r) (qsum (map Sales rows))) rows.
Proof.
  unfold revenue_contributions, derive. rewrite map_map. reflexivity.
Qed.

Lemma profit_contributions_eq rows threshold :
  profit_contributions rows threshold =
  map (fun r => share (gross_profit r) (qsum (map gross_profit rows))) rows.
Proof.
  unfold profit_contributions, derive. rewrite map_map. reflexivity.
Qed.

(** C3, as stated, fails on a frame whose Sales add up to zero: the
    single line [zero_row] is a non-empty filtered set, its Revenue
    Contribution is 0/0, and neither the IEEE sum (NaN) nor the pandas
    sum (0, NaN skipped) of the column is 100. *)
Lemma revenue_contribution_sum_counterexample :
  [zero_row] <> [] /\
  fsum (revenue_contributions [zero_row] (qz 10)) = NaN /\
  pd_sum (revenue_contributions [zero_row] (qz 10)) = Fin 0 /\
  fsum (revenue_contributions [zero_row] (qz 10)) <> Fin (qz 100) /\
  pd_sum (revenue_contributions [zero_row] (qz 10)) <> Fin (qz 100).
Proof.
  assert (H1 : fsum (revenue_contributions [zero_row] (qz 10)) = NaN)
    by reflexivity.
  assert (H2 : pd_sum (revenue_contributions [zero_row] (qz 10)) = Fin 0)
    by reflexivity.
  split; [discriminate | split; [exact H1 | split; [exact H2 | split]]].
  - rewrite H1. discriminate.
  - rewrite H2. intros E. inversion E.
Qed.

(** C3 (amended): the Revenue Contribution column adds up to 100
    whenever Total Sales is non-zero, and the Profit Contribution
    column adds up to 100 whenever Total Profit is non-zero. *)
Theorem contribution_sums (rows : list Row) (threshold : Qc) :
  (total_sales rows <> 0 ->
   fsum (revenue_contributions rows threshold) = Fin (qz 100)) /\
  (total_profit rows <> 0 ->
   fsum (profit_contributions rows threshold) = Fin (qz 100)).
Proof.
  split; intros HT.
  - rewrite revenue_contributions_eq. apply shares_sum_to_100. exact HT.
  - rewrite profit_contributions_eq. apply shares_sum_to_100. exact HT.
Qed.

Lemma contribution_sums_witness :
  total_sales ex_rows <> 0 /\ total_profit ex_rows <> 0 /\
  fsum (revenue_contributions ex_rows (qz 10)) = Fin (qz 100) /\
  fsum (profit_contributions ex_rows (qz 10)) = Fin (qz 100).
Proof.
  assert (Hs : total_sales ex_rows <> 0).
  { intros E. apply (f_equal this) in E. vm_compute in E. discriminate. }
  assert (Hp : total_profit ex_rows <> 0).
  { intros E. apply (f_equal this) in E. vm_compute in E. discriminate. }
  split; [exact Hs | split; [exact Hp | split]].
  - exact (proj1 (contribution_sums ex_rows (qz 10)) Hs).
  - exact (proj2 (contribution_sums ex_rows (qz 10)) Hp).
Defined.

(* ------------------------------------------------------------------ *)
(** ** Sorting and grouping facts *)

Lemma insert_perm (A : Type) (le : A -> A -> bool) (x : A) (l : list A) :
  Permutation (insert le x l) (x :: l).
Proof.
  induction l as [|y t IH]; simpl.
  - apply Permutation_refl.
  - destruct (le x y).
    + apply Permutation_refl.
    + apply perm_trans with (y :: x :: t).
      * apply perm_skip. exact IH.
      * apply perm_swap.
Qed.

Lemma isort_perm (A : Type) (le : A -> A -> bool) (l : list A) :
  Permutation (isort le l) l.
Proof.
  induction l as [|x t IH]; simpl.
  - apply perm_nil.
  - apply perm_trans with (x :: isort le t).
    + apply insert_perm.
    + apply perm_skip. exact IH.
Qed.

Lemma group_keys_NoDup (l : list string) : NoDup (group_keys l).
Proof.
  unfold group_keys.
  apply (Permutation_NoDup (l := nodup string_dec l)).
  - apply Permutation_sym, isort_perm.
  - apply NoDup_nodup.
Qed.

Lemma group_keys_In (l : list string) (k : string) :
  In k (group_keys l) <-> In k l.
Proof.
  unfold group_keys. split; intros H.
  - apply (nodup_In string_dec).
    apply (Permutation_in _ (isort_perm _ String.leb _)). exact H.
  - apply (Permutation_in _ (Permutation_sym (isort_perm _ String.leb _))).
    apply (nodup_In string_dec). exact H.
Qed.

Lemma qsum_perm (l1 l2 : list Qc) : Permutation l1 l2 -> qsum l1 = qsum l2.
Proof.
  induction 1; simpl.
  - reflexivity.
  - rewrite IHPermutation. reflexivity.
  - ring.
  - congruence.
Qed.

(** The indicator of one key adds up to a single hit over a
    duplicate-free list of keys that contains it. *)
Lemma qsum_indicator (ks : list string) (k : string) (v : Qc) :
  NoDup ks -> In k ks ->
  qsum (map (fun k' => if String.eqb k k' then v else 0) ks) = v.
Proof.
  induction 1 as [|k0 ks Hnotin Hnd IH]; intros Hin; simpl.
  - destruct Hin.
  - destruct (String.eqb_spec k k0) as [->|Hne].
    + assert (Hz : qsum (map (fun k' => if String.eqb k0 k' then v else 0) ks) = 0).
      { clear IH Hin Hnd. induction ks as [|k1 ks IHks]; simpl.
        - reflexivity.
        - destruct (String.eqb_spec k0 k1) as [->|_].
          + exfalso. apply Hnotin. left. reflexivity.
          + rewrite IHks.
            * ring.
            * intros Hin. apply Hnotin. right. exact Hin. }
      rewrite Hz. ring.
    + destruct Hin as [->|Hin]; [contradiction|].
      rewrite IH by assumption. ring.
Qed.

(** Group totals add up to the ungrouped total. *)
Lemma qsum_by_key (A : Type) (key : A -> string) (f : A -> Qc)
      (ks : list string) (l : list A) :
  NoDup ks -> (forall r, In r l -> In (key r) ks) ->
  qsum (map (fun k => qsum (map f (filter (fun r => String.eqb (key r) k) l))) ks)
  = qsum (map f l).
Proof.
  intros Hnd. induction l as [|r l IH]; intros Hcov.
  - simpl. clear Hnd Hcov. induction ks as [|k ks IHks]; simpl.
    + reflexivity.
    + rewrite IHks. ring.
  - assert (Hsplit : forall ks',
      qsum (map (fun k => qsum (map f (filter (fun r' => String.eqb (key r') k) (r :: l)))) ks')
      = qsum (map (fun k' => if String.eqb (key r) k' then f r else 0) ks')
        + qsum (map (fun k => qsum (map f (filter (fun r' => String.eqb (key r') k) l))) ks')).
    { induction ks' as [|k ks' IHks]; simpl.
      - ring.
      - simpl in IHks. rewrite IHks.
        destruct (String.eqb (key r) k); simpl; ring. }
    rewrite Hsplit.
    rewrite qsum_indicator by (try assumption; apply Hcov; left; reflexivity).
    rewrite IH by (intros r' Hr'; apply Hcov; right; exact Hr').
    reflexivity.
Qed.

Lemma groupby_sum (A : Type) (key : A -> string) (f : A -> Qc) (l : list A) :
  qsum (map (fun kg => qsum (map f (snd kg))) (groupby key l)) = qsum (map f l).
Proof.
  unfold groupby. rewrite map_map. simpl.
  apply qsum_by_key.
  - apply group_keys_NoDup.
  - intros r Hr. apply group_keys_In. apply in_map. exact Hr.
Qed.

(* ------------------------------------------------------------------ *)
(** ** Group totals *)

(** C5: for both grouping keys (Product Name in TAB 1, Division in
    TAB 2) the per-group Sales totals add up to the ungrouped Sales
    total of the filtered set, and the per-group Gross Profit totals add
    up to the ungrouped Gross Profit total. *)
Theorem group_sums_equal_ungrouped_sums
        (sqrt_q : Qc -> Qc) (rows : list Row) (threshold : Qc) :
  let fd := derive rows threshold in
  qsum (map ps_Sales (product_summary sqrt_q fd)) = total_sales rows /\
  qsum (map ps_Gross_Profit (product_summary sqrt_q fd)) = total_profit rows /\
  qsum (map ds_Sales (division_summary fd)) = total_sales rows /\
  qsum (map ds_Gross_Profit (division_summary fd)) = total_profit rows.
Proof.
  intros fd.
  assert (Hs : qsum (map sales_of fd) = total_sales rows).
  { unfold fd, derive, total_sales. rewrite map_map. reflexivity. }
  assert (Hp : qsum (map Gross_Profit fd) = total_profit rows).
  { unfold fd, derive, total_profit. rewrite map_map. reflexivity. }
  unfold product_summary, product_totals, division_summary, group_profit.
  rewrite !map_map. simpl.
  rewrite <- Hs, <- Hp.
  repeat split; apply groupby_sum.
Qed.

(* ------------------------------------------------------------------ *)
(** ** Empty filtered set *)

Lemma render_nil (sqrt_q : Qc -> Qc) (threshold : Qc) :
  render sqrt_q [] threshold = Ok empty_dashboard.
Proof. reflexivity. Qed.

(** C7: when no line passes the filters the script runs to its end
    without raising; the insight block takes its "no data" branch, so
    none of the five insights is computed (two of them would raise on
    an empty frame), and every division by an empty total yields NaN
    instead of an exception. *)
Theorem empty_filtered_set_gives_no_data
        (sqrt_q : Qc -> Qc) (df : list Row) (sb : Sidebar) :
  apply_filters df sb = Some [] ->
  app sqrt_q df sb = Some (Ok empty_dashboard) /\
  insight_box empty_dashboard = NoData /\
  automated_insights sqrt_q [] = Ok NoData /\
  best_division_of [] = Raise ValueError /\
  worst_margin_product_of [] = Raise ValueError /\
  tab4_top_20_profit_share empty_dashboard = NaN /\
  kpi_average_margin empty_dashboard = NaN.
Proof.
  intros H. unfold app. rewrite H. simpl.
  rewrite render_nil. repeat split; reflexivity.
Qed.

Lemma empty_filtered_set_gives_no_data_witness :
  apply_filters ex_rows reversed_sb = Some [] /\
  app sqrt_floor ex_rows reversed_sb = Some (Ok empty_dashboard).
Proof.
  split; [reflexivity |].
  apply (empty_filtered_set_gives_no_data sqrt_floor ex_rows reversed_sb).
  reflexivity.
Defined.

(* ------------------------------------------------------------------ *)
(** ** Reversed date range *)

Lemma filter_none (A : Type) (f : A -> bool) (l : list A) :
  (forall x, In x l -> f x = false) -> filter f l = [].
Proof.
  induction l as [|x l IH]; intros H; simpl.
  - reflexivity.
  - rewrite (H x) by (left; reflexivity).
    apply IH. intros y Hy. apply H. right. exact Hy.
Qed.

Lemma reversed_range_rejects (rng : Z * Z) (r : Row) :
  (snd rng < fst rng)%Z -> in_date_range rng r = false.
Proof.
  intros H. unfold in_date_range.
  destruct (Z.leb_spec (fst rng) (Date r)); simpl; [|reflexivity].
  destruct (Z.leb_spec (Date r) (snd rng)); [lia | reflexivity].
Qed.

(** C2, as stated, fails: with the start of the range after its end
    the script raises nothing; it filters every line out and goes on to
    the derivation and the summaries of the empty frame. *)
Lemma reversed_range_counterexample :
  (snd (date_range reversed_sb) < fst (date_range reversed_sb))%Z /\
  apply_filters ex_rows reversed_sb = Some [] /\
  app sqrt_floor ex_rows reversed_sb = Some (Ok empty_dashboard) /\
  (forall e, app sqrt_floor ex_rows reversed_sb <> Some (Raise e)).
Proof.
  split; [reflexivity | split; [reflexivity | split; [reflexivity |]]].
  intros e H. discriminate H.
Qed.

(** C2 (amended): for every sidebar whose start date is after its end
    date (the search string being in the interpreted fragment) the
    filter signals no error and yields the empty set, and the script
    then derives and summarises the empty frame. *)
Theorem reversed_range_yields_empty_set (df : list Row) (sb : Sidebar) :
  (snd (date_range sb) < fst (date_range sb))%Z ->
  re_compile (product_search sb) <> None ->
  apply_filters df sb = Some [] /\
  forall sqrt_q, app sqrt_q df sb = Some (Ok empty_dashboard).
Proof.
  intros Hrev Hpat.
  assert (H : apply_filters df sb = Some []).
  { unfold apply_filters.
    rewrite (filter_none _ (in_date_range (date_range sb)) df)
      by (intros r _; apply reversed_range_rejects; exact Hrev).
    simpl.
    destruct (truthy (product_search sb)); [|reflexivity].
    destruct (re_compile (product_search sb)); [reflexivity | contradiction]. }
  split; [exact H |].
  intros sqrt_q. unfold app. rewrite H. reflexivity.
Qed.

Lemma reversed_range_yields_empty_set_witness :
  (snd (date_range reversed_sb) < fst (date_range reversed_sb))%Z /\
  re_compile (product_search reversed_sb) <> None /\
  apply_filters ex_rows reversed_sb = Some [].
Proof.
  assert (H1 : (snd (date_range reversed_sb) < fst (date_range reversed_sb))%Z)
    by reflexivity.
  assert (H2 : re_compile (product_search reversed_sb) <> None)
    by (simpl; discriminate).
  split; [exact H1 | split; [exact H2 |]].
  exact (proj1 (reversed_range_yields_empty_set ex_rows reversed_sb H1 H2)).
Defined.

(* ------------------------------------------------------------------ *)
(** ** The worked example *)

(** C9: on the three lines (ProductA, DivX, 100, 60, 10), (ProductB,
    DivX, 200, 50, 20), (ProductA, DivY, 50, 50, 5), threshold 10 and a
    sidebar that keeps every line, the script shows Total Sales 350 and
    Total Profit 190, ProductA has aggregate Gross Profit 40, the DivY
    line of ProductA is "High Risk", and the best division is DivX. *)
Theorem worked_example (sqrt_q : Qc -> Qc) :
  apply_filters ex_rows ex_sb = Some ex_rows /\
  exists d i pa,
    app sqrt_q ex_rows ex_sb = Some (Ok d) /\
    kpi_total_sales d = qz 350 /\
    kpi_total_profit d = qz 190 /\
    In pa (tab1_product_summary d) /\
    ps_Product_Name pa = "ProductA" /\
    ps_Gross_Profit pa = qz 40 /\
    map (fun x => (name_of x, division_of x, Risk_Level x)) (filtered_df d)
    = [("ProductA", "DivX", "Safe");
       ("ProductB", "DivX", "Safe");
       ("ProductA", "DivY", "High Risk")] /\
    insight_box d = InsightText i /\
    best_division i = "DivX".
Proof.
  split; [reflexivity |].
  eexists. eexists. eexists.
  split; [reflexivity |].
  split; [qc_compute |].
  split; [qc_compute |].
  split; [left; reflexivity |].
  split; [reflexivity |].
  split; [qc_compute |].
  split; [reflexivity |].
  split; reflexivity.
Qed.

(* ------------------------------------------------------------------ *)
(** ** Pareto table *)

Lemma sort_values_desc_perm (l : list (string * Qc)) :
  Permutation (sort_values_desc l) l.
Proof.
  unfold sort_values_desc.
  apply perm_trans with (isort (fun a b => qleb (snd a) (snd b)) (rev l)).
  - apply Permutation_sym, Permutation_rev.
  - apply perm_trans with (rev l).
    + apply isort_perm.
    + apply Permutation_sym, Permutation_rev.
Qed.

(** The ranked profits add up to the ungrouped Gross Profit. *)
Lemma profit_summary_total (fd : list DRow) :
  qsum (map snd (profit_summary fd)) = qsum (map Gross_Profit fd).
Proof.
  unfold profit_summary.
  rewrite (qsum_perm _ (map snd (agg group_profit (groupby name_of fd)))).
  - unfold agg, group_profit. rewrite map_map. simpl. apply groupby_sum.
  - apply Permutation_map, sort_values_desc_perm.
Qed.

Lemma cumsum_from_length (l : list Qc) (a : Qc) :
  List.length (cumsum_from a l) = List.length l.
Proof.
  revert a. induction l as [|x l IH]; intros a; simpl.
  - reflexivity.
  - rewrite IH. reflexivity.
Qed.

Lemma map_snd_combine_same_length (A B : Type) (l : list A) (l' : list B) :
  List.length l = List.length l' -> map snd (combine l l') = l'.
Proof.
  revert l'. induction l as [|x l IH]; intros [|y l'] H; simpl in *;
    try reflexivity; try discriminate.
  rewrite IH by congruence. reflexivity.
Qed.

Lemma cumulative_pct_eq (fd : list DRow) :
  cumulative_pct fd =
  map (fun c => share c (qsum (map snd (profit_summary fd))))
      (cumsum (map snd (profit_summary fd))).
Proof.
  unfold cumulative_pct, pareto. rewrite map_map. simpl.
  rewrite <- (map_map snd (fun c => share c (qsum (map snd (profit_summary fd))))).
  rewrite map_snd_combine_same_length.
  - reflexivity.
  - unfold cumsum. rewrite cumsum_from_length, length_map. reflexivity.
Qed.

Lemma last_cumsum_from (l : list Qc) (a d : Qc) :
  l <> [] -> last (cumsum_from a l) d = a + qsum l.
Proof.
  revert a. induction l as [|x l IH]; intros a Hne.
  - contradiction.
  - destruct l as [|y l].
    + simpl. ring.
    + change (last (cumsum_from (a + x) (y :: l)) d = a + qsum (x :: y :: l)).
      rewrite IH by discriminate. simpl. ring.
Qed.

Lemma last_map_nonempty (A B : Type) (f : A -> B) (l : list A) (d : A) (d' : B) :
  l <> [] -> last (map f l) d' = f (last l d).
Proof.
  induction l as [|x l IH]; intros Hne.
  - contradiction.
  - destruct l as [|y l].
    + reflexivity.
    + change (last (map f (y :: l)) d' = f (last (y :: l) d)).
      apply IH. discriminate.
Qed.

Lemma qz_100_nonneg : 0 <= qz 100.
Proof. apply Qcle_alt. vm_compute. discriminate. Qed.

Lemma fleb_fin (a b : Qc) : a <= b -> fleb (Fin a) (Fin b) = true.
Proof.
  intros H. pose proof (proj1 (Qcle_alt a b) H) as H'. unfold fleb.
  destruct (a ?= b)%Qc; try reflexivity.
  exfalso. apply H'. reflexivity.
Qed.

Lemma share_monotone (a b T : Qc) :
  0 < T -> a <= b -> fleb (share a T) (share b T) = true.
Proof.
  intros HT Hab.
  assert (HT0 : T <> 0) by (apply not_eq_sym, Qclt_not_eq; exact HT).
  rewrite !share_fin by assumption.
  apply fleb_fin. apply Qcmult_le_compat_r; [| apply qz_100_nonneg].
  apply (Qcmult_lt_0_le_reg_r _ _ T HT).
  replace (a / T * T) with a by (field; assumption).
  replace (b / T * T) with b by (field; assumption).
  exact Hab.
Qed.

Lemma qsum_nonneg (l : list Qc) : (forall x, In x l -> 0 <= x) -> 0 <= qsum l.
Proof.
  induction l as [|x l IH]; intros H; simpl.
  - apply Qcle_refl.
  - replace 0 with (0 + 0) by ring.
    apply Qcplus_le_compat.
    + apply H. left. reflexivity.
    + apply IH. intros y Hy. apply H. right. exact Hy.
Qed.

Lemma nondecreasing_cumsum (T : Qc) (l : list Qc) (a : Qc) :
  0 < T -> (forall x, In x l -> 0 <= x) ->
  nondecreasing (map (fun c => share c T) (cumsum_from a l)) = true.
Proof.
  intros HT. revert a. induction l as [|x l IH]; intros a Hpos.
  - reflexivity.
  - destruct l as [|y l].
    + reflexivity.
    + change (fleb (share (a + x) T) (share (a + x + y) T)
              && nondecreasing (map (fun c => share c T)
                                    (cumsum_from (a + x) (y :: l))) = true).
      rewrite IH by (intros z Hz; apply Hpos; right; exact Hz).
      rewrite share_monotone; try assumption; try reflexivity.
      replace (a + x) with (a + x + 0) at 1 by ring.
      apply Qcplus_le_compat; [apply Qcle_refl |].
      apply Hpos. right. left. reflexivity.
Qed.

(** With a non-zero total the last Cumulative % is 100, and without a
    negative product total the column is non-decreasing. *)
Lemma cumulative_pct_of_nonneg (fd : list DRow) :
  qsum (map Gross_Profit fd) <> 0 ->
  last (cumulative_pct fd) NaN = Fin (qz 100) /\
  ((forall kv, In kv (profit_summary fd) -> 0 <= snd kv) ->
   nondecreasing (cumulative_pct fd) = true).
Proof.
  intros HT.
  rewrite cumulative_pct_eq.
  set (vals := map snd (profit_summary fd)).
  assert (Htot : qsum vals = qsum (map Gross_Profit fd))
    by apply profit_summary_total.
  rewrite Htot.
  set (T := qsum (map Gross_Profit fd)) in *.
  assert (Hne : vals <> []).
  { intros E. apply HT. rewrite <- Htot, E. reflexivity. }
  split.
  - rewrite (last_map_nonempty _ _ _ _ 0).
    + unfold cumsum. rewrite last_cumsum_from by exact Hne.
      rewrite Htot, share_fin by exact HT.
      f_equal. replace (0 + T) with T by ring. field. exact HT.
    + unfold cumsum. intros E. apply (f_equal (@List.length Qc)) in E.
      rewrite cumsum_from_length in E.
      destruct vals; [apply Hne; reflexivity | discriminate E].
  - intros Hpos.
    assert (Hvals : forall x, In x vals -> 0 <= x).
    { intros x Hx. unfold vals in Hx. apply in_map_iff in Hx.
      destruct Hx as [kv [<- Hkv]]. apply Hpos. exact Hkv. }
    apply nondecreasing_cumsum; [| exact Hvals].
    destruct (Qcle_lt_or_eq _ _ (qsum_nonneg vals Hvals)) as [Hlt | Heq].
    + rewrite <- Htot. exact Hlt.
    + exfalso. apply HT. rewrite <- Htot. symmetry. exact Heq.
Qed.

(* ------------------------------------------------------------------ *)
(** ** Top-20% share *)

Lemma py_int_fifth (n : Z) :
  (0 <= n)%Z -> py_int (qz n * one_fifth) = (n / 5)%Z.
Proof.
  intros Hn. unfold py_int.
  set (q := qz n * one_fifth).
  assert (Hq : (this q == n # 5)%Q).
  { change (this q) with (Qred (Qred (inject_Z n) * Qred (2 # 10))).
    rewrite !Qred_correct. unfold Qeq, inject_Z. simpl. lia. }
  clearbody q. destruct q as [[m d] Hcanon].
  unfold Qeq in Hq. cbn [this Qnum Qden] in Hq |- *.
  pose proof (Pos2Z.is_pos d) as Hd.
  assert (Hm : (0 <= m)%Z) by nia.
  rewrite Z.quot_div_nonneg by lia.
  symmetry. apply Z.div_unique with (r := (m - Zpos d * (n / 5))%Z); [| lia].
  pose proof (Z.div_mod n 5 ltac:(lia)) as Hdm.
  pose proof (Z.mod_pos_bound n 5 ltac:(lia)) as Hb.
  left. nia.
Qed.

Lemma insight_top_20_count_eq (ranking : list (string * Qc)) :
  insight_top_20_count ranking
  = Z.max 1 (Z.of_nat (List.length ranking) / 5).
Proof.
  unfold insight_top_20_count, len. rewrite py_int_fifth by lia. reflexivity.
Qed.

Lemma pareto_top_20_count_eq (ranking : list (string * Qc)) :
  pareto_top_20_count ranking = (Z.of_nat (List.length ranking) / 5)%Z.
Proof.
  unfold pareto_top_20_count, len. rewrite py_int_fifth by lia. reflexivity.
Qed.

Section SortFacts.
Context {A : Type} (le : A -> A -> bool) (R : A -> A -> Prop).
Hypothesis le_spec : forall x y, le x y = true <-> R x y.
Hypothesis R_total : forall x y, R x y \/ R y x.
Hypothesis R_trans : forall x y z, R x y -> R y z -> R x z.

Lemma insert_sorted (x : A) (l : list A) :
  StronglySorted R l -> StronglySorted R (insert le x l).
Proof.
  induction 1 as [|y t Hss IH Hall]; simpl.
  - constructor; constructor.
  - destruct (le x y) eqn:E.
    + apply le_spec in E.
      constructor; [constructor; assumption |].
      constructor; [exact E |].
      eapply Forall_impl; [| exact Hall].
      intros z Hz. apply (R_trans _ _ _ E Hz).
    + constructor; [exact IH |].
      apply (Permutation_Forall (Permutation_sym (insert_perm _ le x t))).
      constructor; [| exact Hall].
      destruct (R_total x y) as [Hxy | Hyx]; [| exact Hyx].
      apply le_spec in Hxy. congruence.
Qed.

Lemma isort_sorted (l : list A) : StronglySorted R (isort le l).
Proof.
  induction l as [|x l IH]; simpl.
  - constructor.
  - apply insert_sorted. exact IH.
Qed.
End SortFacts.

Lemma StronglySorted_snoc (A : Type) (R : A -> A -> Prop) (l : list A) (a : A) :
  StronglySorted R l -> Forall (fun x => R x a) l -> StronglySorted R (l ++ [a]).
Proof.
  induction 1 as [|y t Hss IH Hall]; intros Hf; simpl.
  - constructor; constructor.
  - inversion Hf as [|? ? Hya Ht]; subst.
    constructor; [apply IH; exact Ht |].
    apply Forall_app. split; [exact Hall |].
    constructor; [exact Hya | constructor].
Qed.

Lemma StronglySorted_rev (A : Type) (R : A -> A -> Prop) (l : list A) :
  StronglySorted R l -> StronglySorted (fun a b => R b a) (rev l).
Proof.
  induction 1 as [|y t Hss IH Hall]; simpl.
  - constructor.
  - apply StronglySorted_snoc; [exact IH |].
    apply Forall_rev. exact Hall.
Qed.

Lemma qleb_le (a b : Qc) : qleb a b = true <-> a <= b.
Proof.
  unfold qleb. split.
  - intros H. apply Qcle_alt. destruct (a ?= b)%Qc; discriminate.
  - intros H. pose proof (proj1 (Qcle_alt a b) H) as H'.
    destruct (a ?= b)%Qc; try reflexivity. exfalso. apply H'. reflexivity.
Qed.

(** The ranking is in descending order of summed Gross Profit. *)
Lemma sort_values_desc_sorted (l : list (string * Qc)) :
  StronglySorted (fun a b => snd b <= snd a) (sort_values_desc l).
Proof.
  unfold sort_values_desc.
  apply (StronglySorted_rev _ (fun a b => snd a <= snd b)).
  apply (isort_sorted (fun a b => qleb (snd a) (snd b))).
  - intros x y. apply qleb_le.
  - intros x y. destruct (Qclt_le_dec (snd x) (snd y)) as [H | H].
    + left. apply Qclt_le_weak. exact H.
    + right. exact H.
  - intros x y z. apply Qcle_trans.
Qed.

Lemma groupby_nonempty (A : Type) (key : A -> string) (l : list A) :
  l <> [] -> groupby key l <> [].
Proof.
  intros Hne E. destruct l as [|x l]; [contradiction |].
  assert (Hin : In (key x) (group_keys (map key (x :: l)))).
  { apply group_keys_In. left. reflexivity. }
  unfold groupby in E. apply map_eq_nil in E. rewrite E in Hin. destruct Hin.
Qed.

Lemma profit_summary_nonempty (fd : list DRow) :
  fd <> [] -> (0 < Z.of_nat (List.length (profit_summary fd)))%Z.
Proof.
  intros Hne. unfold profit_summary.
  rewrite (Permutation_length (sort_values_desc_perm _)).
  unfold agg. rewrite length_map.
  pose proof (groupby_nonempty _ name_of fd Hne) as H.
  destruct (groupby name_of fd); [contradiction | simpl; lia].
Qed.

(** C1, as stated, fails: both computations of the count truncate
    [0.2 * N] instead of rounding it up.  With six products of equal
    profit the specification takes two entries (33.3%), the script one
    (16.7%).  With the two products of [ex_rows] the count of TAB 4 is
    zero and its share is 0%. *)
Lemma top_fraction_counterexample :
  let ranking := profit_summary (derive six_rows (qz 10)) in
  List.length ranking = 6%nat /\
  spec_top_count 6 = 2%Z /\
  insight_top_20_count ranking = 1%Z /\
  pareto_top_20_count ranking = 1%Z /\
  spec_top_fraction_share ranking = Fin (Q2Qc (100 # 3)) /\
  dependency_ratio_of ranking = Fin (Q2Qc (50 # 3)) /\
  top_20_profit_share_of ranking = Fin (Q2Qc (50 # 3)) /\
  dependency_ratio_of ranking <> spec_top_fraction_share ranking /\
  pareto_top_20_count (profit_summary (derive ex_rows (qz 10))) = 0%Z /\
  top_20_profit_share_of (profit_summary (derive ex_rows (qz 10))) = Fin 0.
Proof.
  intros ranking.
  assert (Hspec : spec_top_fraction_share ranking = Fin (Q2Qc (100 # 3)))
    by (f_equal; column_compute).
  assert (Hdep : dependency_ratio_of ranking = Fin (Q2Qc (50 # 3)))
    by (f_equal; column_compute).
  split; [reflexivity |].
  split; [reflexivity |].
  split; [reflexivity |].
  split; [reflexivity |].
  split; [exact Hspec |].
  split; [exact Hdep |].
  split; [f_equal; column_compute |].
  split; [rewrite Hspec, Hdep; intros E; inversion E |].
  split; [reflexivity | column_compute].
Qed.

(** C1 (amended): for a non-empty filtered set the insight block ranks
    the N products by descending summed Gross Profit, takes the first
    max(1, floor(0.2 * N)) entries (at least one, at most N), and
    reports their combined Gross Profit as a percentage of the total
    Gross Profit. *)
Theorem insight_top_fraction_share (fd : list DRow) :
  fd <> [] ->
  let ranking := profit_summary fd in
  let N := Z.of_nat (List.length ranking) in
  let k := insight_top_20_count ranking in
  Permutation ranking (agg group_profit (groupby name_of fd)) /\
  StronglySorted (fun a b => snd b <= snd a) ranking /\
  (0 < N)%Z /\
  k = Z.max 1 (N / 5) /\
  (1 <= k <= N)%Z /\
  dependency_ratio_of ranking
  = share (qsum (map snd (firstn (Z.to_nat k) ranking)))
          (qsum (map Gross_Profit fd)).
Proof.
  intros Hne ranking N k.
  pose proof (profit_summary_nonempty fd Hne) as HN. fold ranking N in HN.
  assert (Hk : k = Z.max 1 (N / 5)) by apply insight_top_20_count_eq.
  split; [apply sort_values_desc_perm |].
  split; [apply sort_values_desc_sorted |].
  split; [exact HN |].
  split; [exact Hk |].
  split.
  - pose proof (Z.div_le_upper_bound N 5 N ltac:(lia) ltac:(lia)). lia.
  - subst k N ranking. unfold dependency_ratio_of, head.
    rewrite profit_summary_total. reflexivity.
Qed.

Lemma insight_top_fraction_share_witness :
  derive ex_rows (qz 10) <> [] /\
  insight_top_20_count (profit_summary (derive ex_rows (qz 10))) = 1%Z.
Proof.
  assert (H : derive ex_rows (qz 10) <> []) by discriminate.
  split; [exact H |].
  destruct (insight_top_fraction_share (derive ex_rows (qz 10)) H)
    as (_ & _ & _ & Hk & _).
  rewrite Hk. reflexivity.
Defined.

(* ------------------------------------------------------------------ *)
(** ** Record filter *)

Lemma filter_all (A : Type) (f : A -> bool) (l : list A) :
  (forall x, In x l -> f x = true) -> filter f l = l.
Proof.
  induction l as [|x l IH]; intros H; simpl.
  - reflexivity.
  - rewrite (H x) by (left; reflexivity).
    f_equal. apply IH. intros y Hy. apply H. right. exact Hy.
Qed.

Lemma isin_In (x : string) (l : list string) : isin x l = true <-> In x l.
Proof.
  unfold isin. rewrite existsb_exists. split.
  - intros [y [Hy E]]. apply String.eqb_eq in E. subst. exact Hy.
  - intros H. exists x. split; [exact H | apply String.eqb_refl].
Qed.

Lemma in_date_range_spec (rng : Z * Z) (r : Row) :
  in_date_range rng r = true <-> (fst rng <= Date r <= snd rng)%Z.
Proof.
  unfold in_date_range. rewrite andb_true_iff, !Z.leb_le. reflexivity.
Qed.

Lemma re_compile_literal (s : string) :
  no_meta s = true -> re_compile s = Some (literal s).
Proof.
  induction s as [|c s IH]; simpl; intros H.
  - reflexivity.
  - apply andb_true_iff in H. destruct H as [Hc Hs].
    apply negb_true_iff in Hc.
    destruct (Ascii.eqb_spec c "."%char) as [-> | _].
    + discriminate Hc.
    + rewrite Hc, (IH Hs). reflexivity.
Qed.

Lemma match_here_literal (n h : string) :
  match_here (literal n) h = true <->
  exists post, lower_string h = lower_string n ++ post.
Proof.
  revert h. induction n as [|a n IH]; intros h; simpl.
  - split; [intros _; exists (lower_string h); reflexivity | reflexivity].
  - destruct h as [|c h]; simpl.
    + split; [discriminate | intros [post E]; discriminate E].
    + rewrite andb_true_iff, IH. split.
      * intros [Hc [post E]]. apply Ascii.eqb_eq in Hc.
        exists post. rewrite Hc, E. reflexivity.
      * intros [post E]. inversion E as [[Hc Hh]].
        split; [apply Ascii.eqb_eq; congruence | exists post; exact Hh].
Qed.

(** On a literal pattern the regular-expression search is the
    case-insensitive substring test. *)
Lemma re_search_literal (n h : string) :
  re_search (literal n) h = true <-> ci_substring n h.
Proof.
  unfold ci_substring. induction h as [|c h IH].
  - simpl. rewrite orb_false_r, match_here_literal. simpl. split.
    + intros [post E]. exists "", post. exact E.
    + intros [pre [post E]]. destruct pre as [|x pre].
      * exists post. exact E.
      * discriminate E.
  - change (re_search (literal n) (String c h))
      with (match_here (literal n) (String c h) || re_search (literal n) h).
    rewrite orb_true_iff, match_here_literal, IH. split.
    + intros [[post E] | [pre [post E]]].
      * exists "", post. exact E.
      * exists (String (lower c) pre), post. simpl. rewrite E. reflexivity.
    + intros [pre [post E]]. destruct pre as [|x pre].
      * left. exists post. exact E.
      * right. exists pre, post. simpl in E. inversion E. reflexivity.
Qed.

(** C6, as stated, fails on a search string with a metacharacter: the
    search is a regular-expression search, so ["."] keeps every line of
    [ex_rows] although no product name contains a dot. *)
Lemma text_predicate_counterexample :
  product_search dot_sb <> "" /\
  apply_filters ex_rows dot_sb = Some ex_rows /\
  forall r, In r ex_rows ->
            ~ ci_substring (product_search dot_sb) (Product_Name r).
Proof.
  split; [discriminate | split; [reflexivity |]].
  intros r Hr Hsub. apply re_search_literal in Hsub.
  simpl in Hr. destruct Hr as [<- | [<- | [<- | []]]]; discriminate Hsub.
Qed.

(** C6 (amended): for every frame and every sidebar whose search string
    is in the interpreted fragment, each line of the filter's output has
    its date in [start, end], its Division among the selected ones and,
    when the search string is non-empty, a Product Name in which the
    search string, read as a case-insensitive regular expression, finds
    a match; for a search string without metacharacters that is a
    case-insensitive substring match.  The output is a subset of the
    input, and filtering it again with the same sidebar gives it
    back. *)
Theorem filter_sound (df : list Row) (sb : Sidebar) :
  re_compile (product_search sb) <> None ->
  exists out,
    apply_filters df sb = Some out /\
    (forall r, In r out ->
       (fst (date_range sb) <= Date r <= snd (date_range sb))%Z /\
       In (Division r) (division sb) /\
       (product_search sb <> "" ->
        str_contains (product_search sb) (Product_Name r) = Some true)) /\
    (no_meta (product_search sb) = true ->
     forall r, In r out -> product_search sb <> "" ->
               ci_substring (product_search sb) (Product_Name r)) /\
    incl out df /\
    apply_filters out sb = Some out.
Proof.
  intros Hpat.
  destruct (re_compile (product_search sb)) as [p|] eqn:Ep; [| contradiction].
  set (f1 := in_date_range (date_range sb)).
  set (f2 := fun r : Row => isin (Division r) (division sb)).
  set (f3 := fun r : Row => re_search p (Product_Name r)).
  set (f3' := fun r : Row => if truthy (product_search sb) then f3 r else true).
  assert (Hshape : forall l,
    apply_filters l sb = Some (filter f3' (filter f2 (filter f1 l)))).
  { intros l. unfold apply_filters, f3'. fold f1 f2. rewrite Ep.
    destruct (truthy (product_search sb)).
    - reflexivity.
    - rewrite (filter_all _ (fun _ : Row => true)) by reflexivity.
      reflexivity. }
  exists (filter f3' (filter f2 (filter f1 df))).
  assert (Hin : forall r, In r (filter f3' (filter f2 (filter f1 df))) ->
                          In r df /\ f1 r = true /\ f2 r = true /\ f3' r = true).
  { intros r Hr. apply filter_In in Hr. destruct Hr as [Hr H3].
    apply filter_In in Hr. destruct Hr as [Hr H2].
    apply filter_In in Hr. destruct Hr as [Hr H1]. auto. }
  assert (Htext : forall r, f3' r = true -> product_search sb <> "" ->
                            re_search p (Product_Name r) = true).
  { intros r H3 Hne. unfold f3' in H3.
    destruct (product_search sb); [contradiction | exact H3]. }
  split; [apply Hshape |].
  split.
  { intros r Hr. destruct (Hin r Hr) as (_ & H1 & H2 & H3).
    split; [apply in_date_range_spec; exact H1 |].
    split; [apply isin_In; exact H2 |].
    intros Hne. unfold str_contains. rewrite Ep. simpl.
    rewrite (Htext r H3 Hne). reflexivity. }
  split.
  { intros Hlit r Hr Hne. destruct (Hin r Hr) as (_ & _ & _ & H3).
    apply re_search_literal.
    rewrite (re_compile_literal _ Hlit) in Ep. injection Ep as <-.
    apply Htext; assumption. }
  split.
  { intros r Hr. apply (Hin r Hr). }
  rewrite Hshape. f_equal.
  rewrite (filter_all _ f1), (filter_all _ f2), (filter_all _ f3');
    try reflexivity; intros r Hr; apply (Hin r Hr).
Qed.

Lemma filter_sound_witness :
  re_compile (product_search search_sb) <> None /\
  exists out, apply_filters ex_rows search_sb = Some out /\
              incl out ex_rows /\ apply_filters out search_sb = Some out.
Proof.
  assert (H : re_compile (product_search search_sb) <> None)
    by (simpl; discriminate).
  split; [exact H |].
  destruct (filter_sound ex_rows search_sb H) as (out & H1 & _ & _ & H4 & H5).
  exists out. split; [exact H1 | split; [exact H4 | exact H5]].
Defined.

(* ------------------------------------------------------------------ *)
(** ** Margin volatility *)

Lemma merge_lookup_map (G : string -> num) (ks : list string) (k : string) :
  In k ks -> merge_lookup k (map (fun k' => (k', G k')) ks) = G k.
Proof.
  induction ks as [|k0 ks IH]; intros Hin; simpl.
  - destruct Hin.
  - destruct (String.eqb_spec k k0) as [-> | Hne].
    + reflexivity.
    + destruct Hin as [-> | Hin]; [contradiction | apply IH; exact Hin].
Qed.

Section VolatilityFacts.
Variable sqrt_q : Qc -> Qc.

Lemma volatility_lookup (fd : list DRow) (k : string) :
  In k (group_keys (map name_of fd)) ->
  merge_lookup k (volatility sqrt_q fd)
  = pd_std sqrt_q (margins (group_of fd k)).
Proof.
  intros Hin. unfold volatility, agg, groupby. rewrite map_map. simpl.
  apply (merge_lookup_map
           (fun k' => pd_std sqrt_q (margins (group_of fd k')))).
  exact Hin.
Qed.

Lemma pd_std_short (l : list num) :
  (List.length l <= 1)%nat -> pd_std sqrt_q l = NaN.
Proof.
  intros H. unfold pd_std.
  pose proof (filter_length_le notna l) as Hle. fold (dropna l) in Hle.
  destruct (Nat.leb_spec (List.length (dropna l)) 1); [reflexivity | lia].
Qed.

Lemma product_summary_In (fd : list DRow) (s : ProductSummary) :
  In s (product_summary sqrt_q fd) ->
  In (ps_Product_Name s) (group_keys (map name_of fd)) /\
  ps_Margin_Volatility s
  = pd_std sqrt_q (margins (group_of fd (ps_Product_Name s))) /\
  ps_Volatility_Risk s
  = volatility_risk (median_vol sqrt_q fd) (ps_Margin_Volatility s).
Proof.
  unfold product_summary, product_totals, groupby.
  rewrite map_map. intros H. apply in_map_iff in H.
  destruct H as [k [<- Hk]]. simpl.
  split; [exact Hk |].
  split; [apply volatility_lookup; exact Hk | reflexivity].
Qed.

Lemma product_summary_names (fd : list DRow) :
  map ps_Product_Name (product_summary sqrt_q fd)
  = group_keys (map name_of fd).
Proof.
  unfold product_summary, product_totals, groupby.
  rewrite !map_map. simpl. apply map_id.
Qed.

Lemma margin_volatility_column_eq (fd : list DRow) :
  margin_volatility_column sqrt_q fd
  = map ps_Margin_Volatility (product_summary sqrt_q fd).
Proof.
  unfold margin_volatility_column, product_summary. rewrite map_map.
  reflexivity.
Qed.
End VolatilityFacts.

Lemma pd_median_dropna (l l' : list num) :
  dropna l = dropna l' -> pd_median l = pd_median l'.
Proof. intros H. unfold pd_median. rewrite H. reflexivity. Qed.

(** Dropping entries whose value is NaN does not change what [dropna]
    keeps. *)
Lemma dropna_filter_nan (A : Type) (v : A -> num) (keep : A -> bool) (l : list A) :
  (forall x, In x l -> keep x = false -> v x = NaN) ->
  dropna (map v l) = dropna (map v (filter keep l)).
Proof.
  induction l as [|x l IH]; intros H; simpl.
  - reflexivity.
  - assert (IH' : dropna (map v l) = dropna (map v (filter keep l))).
    { apply IH. intros y Hy. apply H. right. exact Hy. }
    unfold dropna in *. destruct (keep x) eqn:Ek; simpl.
    + rewrite IH'. reflexivity.
    + rewrite (H x) by (auto; left; reflexivity). simpl. exact IH'.
Qed.

Lemma pd_median_one (v : Qc) (l : list num) :
  dropna l = [Fin v] -> pd_median l = Fin v.
Proof. intros H. unfold pd_median. rewrite H. reflexivity. Qed.

Lemma qz_2_half (a b : Qc) :
  fdiv (fadd (Fin a) (Fin b)) (Fin (qz 2)) = Fin ((a + b) / qz 2).
Proof.
  simpl fadd. apply fdiv_fin. intros E.
  apply (f_equal this) in E. vm_compute in E. discriminate.
Qed.

Lemma pd_median_two (a b : Qc) (l : list num) :
  dropna l = [Fin a; Fin b] -> pd_median l = Fin ((a + b) / qz 2).
Proof.
  intros H. unfold pd_median. rewrite H.
  unfold isort, fold_right, insert, fleb.
  destruct (a ?= b)%Qc.
  - cbn [List.length Nat.eqb Nat.odd Nat.even negb Nat.div Nat.divmod fst
         Nat.sub nth]. apply qz_2_half.
  - cbn [List.length Nat.eqb Nat.odd Nat.even negb Nat.div Nat.divmod fst
         Nat.sub nth]. apply qz_2_half.
  - cbn [List.length Nat.eqb Nat.odd Nat.even negb Nat.div Nat.divmod fst
         Nat.sub nth]. rewrite qz_2_half. apply f_equal.
    unfold Qcdiv. ring.
Qed.

Lemma volatility_risk_high (m v : num) :
  volatility_risk m v = "High Volatility" <-> fltb m v = true.
Proof.
  unfold volatility_risk, fgtb. destruct (fltb m v); split; intros H;
    try reflexivity; discriminate H.
Qed.

Lemma volatility_risk_stable (m v : num) :
  volatility_risk m v = "Stable" <-> fltb m v = false.
Proof.
  unfold volatility_risk, fgtb. destruct (fltb m v); split; intros H;
    try reflexivity; discriminate H.
Qed.

(** C8: when a product has exactly one line, its Margin Volatility is
    NaN; the median volatility is the median over the other products
    (the NaN is skipped, not read as zero, and nothing is raised): it is
    the single defined volatility when there is one, the mean of the two
    when there are two.  Every product is labelled by comparing its
    volatility with that median: "High Volatility" exactly when the
    volatility is strictly above the median, "Stable" otherwise, and
    "Stable" whenever the volatility or the median is NaN. *)
Theorem singleton_group_volatility
        (sqrt_q : Qc -> Qc) (fd : list DRow) (p : string) :
  List.length (filter (fun d => String.eqb (name_of d) p) fd) = 1%nat ->
  let table := product_summary sqrt_q fd in
  (exists s, In s table /\ ps_Product_Name s = p) /\
  (forall s, In s table -> ps_Product_Name s = p ->
             ps_Margin_Volatility s = NaN /\ ps_Volatility_Risk s = "Stable") /\
  median_vol sqrt_q fd
  = pd_median
      (map ps_Margin_Volatility
           (filter (fun s => negb (String.eqb (ps_Product_Name s) p)) table)) /\
  (forall v,
     dropna (map ps_Margin_Volatility
                 (filter (fun s => negb (String.eqb (ps_Product_Name s) p)) table))
     = [Fin v] ->
     median_vol sqrt_q fd = Fin v) /\
  (forall a b,
     dropna (map ps_Margin_Volatility
                 (filter (fun s => negb (String.eqb (ps_Product_Name s) p)) table))
     = [Fin a; Fin b] ->
     median_vol sqrt_q fd = Fin ((a + b) / qz 2)) /\
  (forall s, In s table ->
     (ps_Volatility_Risk s = "High Volatility" \/ ps_Volatility_Risk s = "Stable") /\
     (ps_Volatility_Risk s = "High Volatility" <->
      fltb (median_vol sqrt_q fd) (ps_Margin_Volatility s) = true) /\
     (forall v m, ps_Margin_Volatility s = Fin v ->
                  median_vol sqrt_q fd = Fin m ->
                  (ps_Volatility_Risk s = "High Volatility" <-> m < v)) /\
     (ps_Margin_Volatility s = NaN \/ median_vol sqrt_q fd = NaN ->
      ps_Volatility_Risk s = "Stable")).
Proof.
  intros Hone table.
  assert (Hnan : forall s, In s table -> ps_Product_Name s = p ->
                           ps_Margin_Volatility s = NaN).
  { intros s Hs Hp. destruct (product_summary_In sqrt_q fd s Hs) as (_ & Hv & _).
    rewrite Hv, Hp. apply pd_std_short.
    unfold margins, group_of. rewrite length_map, Hone. lia. }
  split.
  { assert (Hk : In p (map ps_Product_Name table)).
    { unfold table. rewrite product_summary_names. apply group_keys_In.
      destruct (filter (fun d => String.eqb (name_of d) p) fd) as [|d l] eqn:E;
        [discriminate Hone |].
      assert (Hd : In d (filter (fun d => String.eqb (name_of d) p) fd))
        by (rewrite E; left; reflexivity).
      apply filter_In in Hd. destruct Hd as [Hd Hn].
      apply String.eqb_eq in Hn. rewrite <- Hn. apply in_map. exact Hd. }
    apply in_map_iff in Hk. destruct Hk as [s [Hs Hin]].
    exists s. split; assumption. }
  split.
  { intros s Hs Hp. split; [apply Hnan; assumption |].
    destruct (product_summary_In sqrt_q fd s Hs) as (_ & _ & Hr).
    rewrite Hr, (Hnan s Hs Hp). unfold volatility_risk, fgtb.
    rewrite fltb_nan_r. reflexivity. }
  assert (Hmed : median_vol sqrt_q fd
                 = pd_median
                     (map ps_Margin_Volatility
                          (filter (fun s => negb (String.eqb (ps_Product_Name s) p))
                                  table))).
  { unfold median_vol. rewrite margin_volatility_column_eq. fold table.
    apply pd_median_dropna. apply dropna_filter_nan.
    intros s Hs Hkeep. apply Hnan; [exact Hs |].
    apply negb_false_iff in Hkeep. apply String.eqb_eq. exact Hkeep. }
  split; [exact Hmed |].
  split; [intros v Hv; rewrite Hmed; apply pd_median_one; exact Hv |].
  split; [intros a b Hab; rewrite Hmed; apply pd_median_two; exact Hab |].
  intros s Hs.
  destruct (product_summary_In sqrt_q fd s Hs) as (_ & _ & Hr).
  rewrite Hr.
  split.
  { unfold volatility_risk.
    destruct (fgtb (ps_Margin_Volatility s) (median_vol sqrt_q fd)); auto. }
  split; [apply volatility_risk_high |].
  split.
  { intros v m Hv Hm. rewrite volatility_risk_high, Hv, Hm. apply fltb_fin. }
  intros [Hv | Hm]; apply volatility_risk_stable.
  - rewrite Hv. apply fltb_nan_r.
  - rewrite Hm. reflexivity.
Qed.

Lemma singleton_group_volatility_witness :
  List.length
    (filter (fun d => String.eqb (name_of d) "Single")
            (derive vol_rows (qz 10))) = 1%nat /\
  median_vol sqrt_floor (derive vol_rows (qz 10))
  = pd_median
      (map ps_Margin_Volatility
           (filter (fun s => negb (String.eqb (ps_Product_Name s) "Single"))
                   (product_summary sqrt_floor (derive vol_rows (qz 10))))).
Proof.
  assert (H : List.length
                (filter (fun d => String.eqb (name_of d) "Single")
                        (derive vol_rows (qz 10))) = 1%nat) by reflexivity.
  split; [exact H |].
  exact (proj1 (proj2 (proj2
    (singleton_group_volatility sqrt_floor (derive vol_rows (qz 10)) "Single" H)))).
Defined.

(** On [vol_rows] the volatilities are 30, 10 and NaN: the median is 20
    (it would be 10 with the NaN read as zero), C is above it and D and
    the single-line product are not. *)
Lemma median_skips_undefined_example :
  map (fun s => (ps_Product_Name s, ps_Volatility_Risk s))
      (product_summary sqrt_floor (derive vol_rows (qz 10)))
  = [("C", "High Volatility"); ("D", "Stable"); ("Single", "Stable")] /\
  map ps_Margin_Volatility (product_summary sqrt_floor (derive vol_rows (qz 10)))
  = [Fin (qz 30); Fin (qz 10); NaN] /\
  median_vol sqrt_floor (derive vol_rows (qz 10)) = Fin (qz 20) /\
  pd_median [Fin (qz 30); Fin (qz 10); Fin 0] = Fin (qz 10).
Proof.
  split; [reflexivity |].
  split; [column_compute |].
  split; column_compute.
Qed.


(* ------------------------------------------------------------------ *)
(** ** More on the record filter *)

Lemma filter_filter (A : Type) (f g : A -> bool) (l : list A) :
  filter g (filter f l) = filter (fun x => f x && g x) l.
Proof.
  induction l as [|x l IH]; simpl.
  - reflexivity.
  - destruct (f x); simpl.
    + destruct (g x); rewrite IH; reflexivity.
    + exact IH.
Qed.

Lemma apply_filters_passes (df : list Row) (sb : Sidebar) (p : list re_item) :
  re_compile (product_search sb) = Some p ->
  apply_filters df sb = Some (filter (passes sb p) df).
Proof.
  intros Ep. unfold apply_filters. rewrite Ep.
  destruct (truthy (product_search sb)) eqn:Et.
  - rewrite !filter_filter. f_equal. apply filter_ext.
    intros r. unfold passes. rewrite Et, andb_assoc. reflexivity.
  - rewrite filter_filter. f_equal. apply filter_ext.
    intros r. unfold passes. rewrite Et, andb_true_r. reflexivity.
Qed.

Lemma truthy_spec (s : string) : truthy s = true <-> s <> "".
Proof.
  destruct s; simpl; split; intros H; try discriminate; try reflexivity.
  contradiction.
Qed.

(** The output of the filter block is exactly the lines of the input
    that pass the date test, the division test and, for a non-empty
    search string, the text test: no such line is lost. *)
Theorem filter_exact (df : list Row) (sb : Sidebar) (p : list re_item) :
  re_compile (product_search sb) = Some p ->
  exists out,
    apply_filters df sb = Some out /\
    forall r,
      In r out <->
      In r df /\
      (fst (date_range sb) <= Date r <= snd (date_range sb))%Z /\
      In (Division r) (division sb) /\
      (product_search sb <> "" -> re_search p (Product_Name r) = true).
Proof.
  intros Ep. exists (filter (passes sb p) df).
  split; [apply apply_filters_passes; exact Ep |].
  intros r. rewrite filter_In. unfold passes.
  rewrite !andb_true_iff, in_date_range_spec, isin_In.
  split.
  - intros (Hin & (Hd & Hv) & Ht).
    repeat split; try tauto.
    intros Hne. apply truthy_spec in Hne. rewrite Hne in Ht. exact Ht.
  - intros (Hin & Hd & Hv & Ht).
    repeat split; try tauto.
    destruct (truthy (product_search sb)) eqn:Et; [| reflexivity].
    apply Ht. apply truthy_spec. exact Et.
Qed.

Lemma filter_exact_witness :
  re_compile (product_search search_sb) = Some (literal "DUCTa") /\
  exists out, apply_filters ex_rows search_sb = Some out.
Proof.
  assert (H : re_compile (product_search search_sb) = Some (literal "DUCTa"))
    by reflexivity.
  split; [exact H |].
  destruct (filter_exact ex_rows search_sb _ H) as (out & Hout & _).
  exists out. exact Hout.
Defined.

(** With no division selected nothing passes the filter. *)
Theorem no_division_selected_gives_empty (df : list Row) (sb : Sidebar) :
  division sb = [] ->
  re_compile (product_search sb) <> None ->
  apply_filters df sb = Some [].
Proof.
  intros Hdiv Hpat.
  destruct (re_compile (product_search sb)) as [p|] eqn:Ep; [| contradiction].
  rewrite (apply_filters_passes df sb p Ep). f_equal.
  apply filter_none. intros r _. unfold passes.
  rewrite Hdiv. simpl. rewrite andb_false_r. reflexivity.
Qed.

Lemma no_division_selected_gives_empty_witness :
  division no_division_sb = [] /\
  re_compile (product_search no_division_sb) <> None /\
  apply_filters ex_rows no_division_sb = Some [].
Proof.
  assert (H1 : division no_division_sb = []) by reflexivity.
  assert (H2 : re_compile (product_search no_division_sb) <> None)
    by (simpl; discriminate).
  split; [exact H1 | split; [exact H2 |]].
  exact (no_division_selected_gives_empty ex_rows no_division_sb H1 H2).
Defined.

Lemma lower_string_app (a b : string) :
  lower_string (a ++ b) = lower_string a ++ lower_string b.
Proof.
  induction a as [|c a IH]; simpl.
  - reflexivity.
  - rewrite IH. reflexivity.
Qed.

Lemma re_search_literal_case (n n' h : string) :
  lower_string n = lower_string n' ->
  re_search (literal n) h = re_search (literal n') h.
Proof.
  intros E.
  apply eq_true_iff_eq. rewrite !re_search_literal.
  unfold ci_substring. rewrite E. reflexivity.
Qed.

(** For search strings without metacharacters the case of the search
    string does not matter: two strings that differ only in the case of
    their letters select the same lines. *)
Theorem search_ignores_case (df : list Row) (sb sb' : Sidebar) :
  date_range sb = date_range sb' ->
  division sb = division sb' ->
  no_meta (product_search sb) = true ->
  no_meta (product_search sb') = true ->
  lower_string (product_search sb) = lower_string (product_search sb') ->
  apply_filters df sb = apply_filters df sb'.
Proof.
  intros Hd Hv Hm Hm' Hl.
  rewrite (apply_filters_passes df sb _ (re_compile_literal _ Hm)).
  rewrite (apply_filters_passes df sb' _ (re_compile_literal _ Hm')).
  f_equal. apply filter_ext. intros r. unfold passes.
  rewrite Hd, Hv.
  rewrite (re_search_literal_case _ _ _ Hl).
  assert (Ht : truthy (product_search sb) = truthy (product_search sb')).
  { destruct (product_search sb), (product_search sb');
      simpl in *; try reflexivity; discriminate Hl. }
  rewrite Ht. reflexivity.
Qed.

Lemma search_ignores_case_witness :
  lower_string (product_search search_sb)
  = lower_string (product_search search_sb_lower) /\
  apply_filters ex_rows search_sb = apply_filters ex_rows search_sb_lower.
Proof.
  assert (H : lower_string (product_search search_sb)
              = lower_string (product_search search_sb_lower)) by reflexivity.
  split; [exact H |].
  apply (search_ignores_case ex_rows search_sb search_sb_lower);
    reflexivity || exact H.
Defined.


(* ------------------------------------------------------------------ *)
(** ** The insight block on a non-empty frame *)

Lemma qltb_lt (a b : Qc) : qltb a b = true <-> a < b.
Proof.
  unfold qltb. split.
  - intros H. apply Qclt_alt. destruct (a ?= b)%Qc; discriminate || reflexivity.
  - intros H. pose proof (proj1 (Qclt_alt a b) H) as H'. rewrite H'. reflexivity.
Qed.

Lemma qltb_ge (a b : Qc) : qltb a b = false -> b <= a.
Proof.
  intros H. apply Qcnot_lt_le. intros Hlt.
  apply qltb_lt in Hlt. congruence.
Qed.

Lemma idxmax_from_spec (l : list (string * Qc)) (best : string * Qc) :
  exists v, In (idxmax_from best l, v) (best :: l) /\
            forall kv, In kv (best :: l) -> snd kv <= v.
Proof.
  revert best. induction l as [|kv t IH]; intros best; simpl idxmax_from.
  - exists (snd best). split.
    + left. destruct best; reflexivity.
    + intros kv [<- | []]. apply Qcle_refl.
  - destruct (qltb (snd best) (snd kv)) eqn:E.
    + destruct (IH kv) as (v & Hin & Hmax). exists v. split.
      * right. exact Hin.
      * intros x [<- | Hx]; [| apply Hmax; exact Hx].
        apply qltb_lt in E. apply Qclt_le_weak.
        apply (Qclt_le_trans _ _ _ E). apply Hmax. left. reflexivity.
    + destruct (IH best) as (v & Hin & Hmax). exists v. split.
      * destruct Hin as [Hin | Hin]; [left; exact Hin | right; right; exact Hin].
      * intros x [<- | [<- | Hx]].
        -- apply Hmax. left. reflexivity.
        -- apply qltb_ge in E. apply (Qcle_trans _ _ _ E).
           apply Hmax. left. reflexivity.
        -- apply Hmax. right. exact Hx.
Qed.

Lemma agg_groupby_In (A B : Type) (key : A -> string) (f : list A -> B)
      (l : list A) (k : string) (v : B) :
  In (k, v) (agg f (groupby key l)) <->
  In k (map key l) /\ v = f (filter (fun r => String.eqb (key r) k) l).
Proof.
  unfold agg, groupby. rewrite map_map. simpl. rewrite in_map_iff. split.
  - intros (k' & E & Hk). inversion E; subst.
    split; [apply group_keys_In; exact Hk | reflexivity].
  - intros (Hk & ->). exists k. split; [reflexivity |].
    apply group_keys_In. exact Hk.
Qed.

(** On a non-empty frame the best division is found; it is the division
    of some line, and no division has a greater summed Gross Profit. *)
Theorem best_division_is_maximal (fd : list DRow) :
  fd <> [] ->
  exists b,
    best_division_of fd = Ok b /\
    In b (map division_of fd) /\
    forall s, In s (division_summary fd) ->
              ds_Gross_Profit s <= division_profit fd b.
Proof.
  intros Hne. unfold best_division_of.
  pose proof (groupby_nonempty _ division_of fd Hne) as Hg.
  destruct (agg group_profit (groupby division_of fd)) as [|kv t] eqn:E.
  { unfold agg in E. apply map_eq_nil in E. contradiction. }
  simpl. destruct (idxmax_from_spec t kv) as (v & Hin & Hmax).
  rewrite <- E in Hin, Hmax.
  apply agg_groupby_In in Hin. destruct Hin as [Hb Hv].
  exists (idxmax_from kv t). split; [reflexivity |].
  split; [exact Hb |].
  intros s Hs. unfold division_summary in Hs. apply in_map_iff in Hs.
  destruct Hs as ([k g] & <- & Hkg). simpl.
  unfold division_profit. rewrite <- Hv.
  apply (Hmax (k, group_profit g)).
  unfold agg. apply in_map_iff. exists (k, g). split; [reflexivity | exact Hkg].
Qed.

Lemma best_division_is_maximal_witness :
  derive ex_rows (qz 10) <> [] /\
  exists b, best_division_of (derive ex_rows (qz 10)) = Ok b.
Proof.
  assert (H : derive ex_rows (qz 10) <> []) by discriminate.
  split; [exact H |].
  destruct (best_division_is_maximal _ H) as (b & Hb & _).
  exists b. exact Hb.
Defined.


(** "Not below" is transitive through a value that is not NaN. *)
Lemma fltb_false_trans (x y z : num) :
  notna y = true ->
  fltb x y = false -> fltb y z = false -> fltb x z = false.
Proof.
  intros Hy Hxy Hyz.
  destruct x as [a| | |], y as [b| | |], z as [c| | |];
    try reflexivity; try discriminate.
  apply fltb_fin_false. apply fltb_fin_false in Hxy, Hyz.
  apply (Qcle_trans _ _ _ Hyz Hxy).
Qed.

Lemma fltb_true_false (x y : num) : fltb x y = true -> fltb y x = false.
Proof.
  destruct x as [a| | |], y as [b| | |]; try reflexivity; try discriminate.
  intros H. apply fltb_fin in H. apply fltb_fin_false.
  apply Qclt_le_weak. exact H.
Qed.

Lemma fltb_true_notna (x y : num) : fltb x y = true -> notna x = true.
Proof. destruct x, y; try reflexivity; discriminate. Qed.

Lemma idxmin_from_spec (l : list (string * num)) (best : string * num) :
  notna (snd best) = true ->
  exists v, In (idxmin_from best l, v) (best :: l) /\
            notna v = true /\
            forall kv, In kv (best :: l) -> fltb (snd kv) v = false.
Proof.
  revert best. induction l as [|kv t IH]; intros best Hb; simpl idxmin_from.
  - exists (snd best). split; [left; destruct best; reflexivity |].
    split; [exact Hb |].
    intros kv [<- | []]. destruct (snd best); try reflexivity.
    apply fltb_fin_false. apply Qcle_refl.
  - destruct (fltb (snd kv) (snd best)) eqn:E.
    + destruct (IH kv (fltb_true_notna _ _ E)) as (v & Hin & Hv & Hmin).
      exists v. split; [right; exact Hin |]. split; [exact Hv |].
      intros x [<- | Hx]; [| apply Hmin; exact Hx].
      apply (fltb_false_trans _ (snd kv)).
      * apply (fltb_true_notna _ _ E).
      * apply fltb_true_false. exact E.
      * apply Hmin. left. reflexivity.
    + destruct (IH best Hb) as (v & Hin & Hv & Hmin).
      exists v. split.
      { destruct Hin as [Hin | Hin]; [left; exact Hin | right; right; exact Hin]. }
      split; [exact Hv |].
      intros x [<- | [<- | Hx]].
      * apply Hmin. left. reflexivity.
      * apply (fltb_false_trans _ (snd best)); [exact Hb | exact E |].
        apply Hmin. left. reflexivity.
      * apply Hmin. right. exact Hx.
Qed.

Lemma fill_inf_notna (x : num) : notna (fill_inf x) = true.
Proof. destruct x; reflexivity. Qed.

Lemma fill_inf_defined (x : num) : notna x = true -> fill_inf x = x.
Proof. destruct x; try reflexivity. discriminate. Qed.

(** What [idxmin] answers on a non-empty series. *)
Lemma idxmin_spec (l : list (string * num)) :
  l <> [] ->
  (forallb (fun e => isnan (snd e)) l = true -> idxmin l = Raise ValueError) /\
  (forallb (fun e => isnan (snd e)) l = false ->
   exists w v,
     idxmin l = Ok w /\ In (w, v) l /\
     forall kv, In kv l -> fltb (fill_inf (snd kv)) (fill_inf v) = false).
Proof.
  intros Hne. destruct l as [|kv t]; [contradiction |].
  unfold idxmin. change (map fill_entry (kv :: t))
    with (fill_entry kv :: map fill_entry t).
  split; intros Hall; rewrite Hall; [reflexivity |].
  destruct (idxmin_from_spec (map fill_entry t) (fill_entry kv)
              (fill_inf_notna _)) as (v' & Hin & _ & Hmin).
  change (fill_entry kv :: map fill_entry t)
    with (map fill_entry (kv :: t)) in Hin, Hmin.
  apply in_map_iff in Hin. destruct Hin as ([w v] & E & Hwv).
  injection E as Hw Hv.
  exists w, v.
  split; [f_equal; symmetry; exact Hw |]. split; [exact Hwv |].
  intros e He. rewrite Hv.
  apply (Hmin (fill_entry e)). apply in_map. exact He.
Qed.

Lemma mean_table_In (fd : list DRow) (k : string) (v : num) :
  In (k, v) (agg (fun g => pd_mean (margins g)) (groupby name_of fd)) <->
  In k (map name_of fd) /\ v = mean_margin fd k.
Proof. apply agg_groupby_In. Qed.

Lemma agg_nonempty (A B : Type) (key : A -> string) (f : list A -> B)
      (l : list A) :
  l <> [] -> agg f (groupby key l) <> [].
Proof.
  intros H E. unfold agg in E. apply map_eq_nil in E.
  apply (groupby_nonempty _ key l H E).
Qed.

Lemma worst_margin_cases (fd : list DRow) :
  fd <> [] ->
  ((forall k, In k (map name_of fd) -> mean_margin fd k = NaN) ->
   worst_margin_product_of fd = Raise ValueError) /\
  ((exists k, In k (map name_of fd) /\ notna (mean_margin fd k) = true) ->
   exists w,
     worst_margin_product_of fd = Ok w /\
     In w (map name_of fd) /\
     forall k', In k' (map name_of fd) ->
                fltb (fill_inf (mean_margin fd k'))
                     (fill_inf (mean_margin fd w)) = false).
Proof.
  intros Hne. unfold worst_margin_product_of.
  destruct (idxmin_spec _ (agg_nonempty _ _ name_of
                             (fun g => pd_mean (margins g)) fd Hne))
    as [Hraise Hok].
  split.
  - intros Hall. apply Hraise. apply forallb_forall.
    intros [k v] Hkv. apply mean_table_In in Hkv. destruct Hkv as [Hk ->].
    simpl. rewrite (Hall k Hk). reflexivity.
  - intros (k & Hk & Hdef).
    destruct Hok as (w & v & Hw & Hwv & Hmin).
    { destruct (forallb _ _) eqn:E; [| reflexivity].
      rewrite forallb_forall in E.
      assert (Hkv : In (k, mean_margin fd k)
                       (agg (fun g => pd_mean (margins g)) (groupby name_of fd)))
        by (apply mean_table_In; auto).
      specialize (E _ Hkv). simpl in E.
      destruct (mean_margin fd k); discriminate. }
    apply mean_table_In in Hwv. destruct Hwv as [Hwin ->].
    exists w. split; [exact Hw |]. split; [exact Hwin |].
    intros k' Hk'. apply (Hmin (k', mean_margin fd k')).
    apply mean_table_In. auto.
Qed.

(** On a non-empty frame the worst-margin search raises [ValueError]
    when every product's mean margin is undefined.  Otherwise it names a
    product of the frame below whose mean margin no product lies, an
    undefined mean counting as plus infinity; as soon as one product has
    a mean margin below plus infinity, the named product's mean margin
    is defined and no mean margin is below it. *)
Theorem worst_margin_product_is_minimal (fd : list DRow) :
  fd <> [] ->
  ((forall k, In k (map name_of fd) -> mean_margin fd k = NaN) ->
   worst_margin_product_of fd = Raise ValueError) /\
  ((exists k, In k (map name_of fd) /\ notna (mean_margin fd k) = true) ->
   exists w,
     worst_margin_product_of fd = Ok w /\
     In w (map name_of fd) /\
     (forall k', In k' (map name_of fd) ->
                 fltb (fill_inf (mean_margin fd k'))
                      (fill_inf (mean_margin fd w)) = false) /\
     ((exists k', In k' (map name_of fd) /\
                  fltb (mean_margin fd k') PInf = true) ->
      notna (mean_margin fd w) = true /\
      forall k', In k' (map name_of fd) ->
                 fltb (mean_margin fd k') (mean_margin fd w) = false)).
Proof.
  intros Hne. destruct (worst_margin_cases fd Hne) as [Hraise Hok].
  split; [exact Hraise |].
  intros Hdef. destruct (Hok Hdef) as (w & Hw & Hwin & Hmin).
  exists w. split; [exact Hw |]. split; [exact Hwin |].
  split; [exact Hmin |].
  intros (k' & Hk' & Hlt).
  assert (Hwdef : notna (mean_margin fd w) = true).
  { specialize (Hmin k' Hk').
    rewrite (fill_inf_defined _ (fltb_true_notna _ _ Hlt)) in Hmin.
    destruct (mean_margin fd w); try reflexivity.
    simpl in Hmin. congruence. }
  split; [exact Hwdef |].
  intros k'' Hk''. specialize (Hmin k'' Hk'').
  rewrite (fill_inf_defined _ Hwdef) in Hmin.
  destruct (notna (mean_margin fd k'')) eqn:En.
  - rewrite (fill_inf_defined _ En) in Hmin. exact Hmin.
  - destruct (mean_margin fd k''); try discriminate En. reflexivity.
Qed.

Lemma worst_margin_product_is_minimal_witness :
  derive ex_rows (qz 10) <> [] /\
  exists w, worst_margin_product_of (derive ex_rows (qz 10)) = Ok w /\
            In w (map name_of (derive ex_rows (qz 10))).
Proof.
  assert (H : derive ex_rows (qz 10) <> []) by discriminate.
  split; [exact H |].
  destruct (proj2 (worst_margin_product_is_minimal _ H)) as (w & Hw & Hin & _).
  - exists "ProductB". split; [right; left; reflexivity | reflexivity].
  - exists w. split; assumption.
Defined.

Lemma idxmax_ok (l : list (string * Qc)) :
  l <> [] -> exists k, idxmax l = Ok k.
Proof.
  destruct l as [|kv t]; [contradiction |].
  intros _. exists (idxmax_from kv t). reflexivity.
Qed.

(* ------------------------------------------------------------------ *)
(** ** When the script raises *)

Lemma tab3_scatter_raises (fd : list DRow) :
  (exists d, In d fd /\ Gross_Profit d < 0) ->
  tab3_scatter fd = Raise ValueError.
Proof.
  intros (d & Hd & Hneg). unfold tab3_scatter.
  assert (H : existsb (fun d => qltb (Gross_Profit d) 0) fd = true).
  { apply existsb_exists. exists d. split; [exact Hd |].
    apply qltb_lt. exact Hneg. }
  rewrite H. reflexivity.
Qed.

Lemma tab3_scatter_ok (fd : list DRow) :
  (forall d, In d fd -> 0 <= Gross_Profit d) <-> tab3_scatter fd = Ok tt.
Proof.
  unfold tab3_scatter.
  destruct (existsb (fun d => qltb (Gross_Profit d) 0) fd) eqn:E.
  - split; [| discriminate].
    intros H. apply existsb_exists in E. destruct E as (d & Hd & Hlt).
    apply qltb_lt in Hlt. exfalso. apply (Qcle_not_lt _ _ (H d Hd) Hlt).
  - split; [reflexivity |].
    intros _ d Hd. apply qltb_ge.
    destruct (qltb (Gross_Profit d) 0) eqn:Ed; [| reflexivity].
    assert (Hex : existsb (fun d => qltb (Gross_Profit d) 0) fd = true)
      by (apply existsb_exists; exists d; auto).
    congruence.
Qed.

(** What a completed run of [render] tells. *)
Lemma render_ok_inv (sqrt_q : Qc -> Qc) (rows : list Row) (threshold : Qc)
      (d : Dashboard) :
  render sqrt_q rows threshold = Ok d ->
  (forall x, In x (derive rows threshold) -> 0 <= Gross_Profit x) /\
  filtered_df d = derive rows threshold /\
  tab4_pareto d = pareto (derive rows threshold).
Proof.
  unfold render.
  destruct (automated_insights sqrt_q (derive rows threshold)) as [box | e];
    [| discriminate].
  simpl.
  destruct (tab3_scatter (derive rows threshold)) as [[] | e] eqn:E3;
    [| discriminate].
  simpl. intros H. inversion H; subst; clear H. simpl.
  split; [apply tab3_scatter_ok; exact E3 |].
  split; reflexivity.
Qed.

(** The script ends with [ValueError] on every filtered set that holds
    a line sold at a loss (at the latest in the scatter plot of TAB 3,
    so TAB 4 is not computed), and completes on the empty set.  On a
    non-empty set without such a line and with a product whose mean
    margin is defined it completes and shows the insight text. *)
Theorem script_raises_on_loss_lines
        (sqrt_q : Qc -> Qc) (rows : list Row) (threshold : Qc) :
  render sqrt_q [] threshold = Ok empty_dashboard /\
  ((exists r, In r rows /\ Sales r < Cost r) ->
   render sqrt_q rows threshold = Raise ValueError) /\
  (rows <> [] ->
   (forall r, In r rows -> Cost r <= Sales r) ->
   (exists k, In k (map name_of (derive rows threshold)) /\
              notna (mean_margin (derive rows threshold) k) = true) ->
   exists d i,
     render sqrt_q rows threshold = Ok d /\
     filtered_df d = derive rows threshold /\
     insight_box d = InsightText i).
Proof.
  split; [reflexivity |].
  split.
  - intros (r & Hr & Hloss). unfold render.
    destruct (automated_insights sqrt_q (derive rows threshold)) as [box | e].
    + simpl. rewrite tab3_scatter_raises; [reflexivity |].
      exists (derive_row rows threshold r). split.
      * unfold derive. apply in_map. exact Hr.
      * simpl. unfold gross_profit. apply Qclt_minus_iff.
        replace (0 + - (Sales r - Cost r)) with (Cost r + - Sales r) by ring.
        exact (proj1 (Qclt_minus_iff _ _) Hloss).
    + destruct e. reflexivity.
  - intros Hne Hsafe Hdef.
    set (fd := derive rows threshold) in *.
    assert (Hfd : fd <> []).
    { destruct rows; [contradiction | discriminate]. }
    destruct (idxmax_ok _ (agg_nonempty _ _ division_of group_profit fd Hfd))
      as [b Hb].
    destruct (proj2 (worst_margin_cases fd Hfd) Hdef) as (w & Hw & _).
    assert (H3 : tab3_scatter fd = Ok tt).
    { apply tab3_scatter_ok. intros x Hx. unfold fd, derive in Hx.
      apply in_map_iff in Hx. destruct Hx as (r & <- & Hr). simpl.
      unfold gross_profit. apply Qcle_minus_iff.
      replace (Sales r - Cost r + - 0) with (Sales r + - Cost r) by ring.
      exact (proj1 (Qcle_minus_iff _ _) (Hsafe r Hr)). }
    assert (Hbox : exists i, automated_insights sqrt_q fd = Ok (InsightText i)).
    { unfold worst_margin_product_of in Hw.
      unfold automated_insights, best_division_of, worst_margin_product_of.
      destruct fd as [|d0 fd0] eqn:Efd; [contradiction |].
      rewrite Hb. simpl. rewrite Hw. simpl. eexists. reflexivity. }
    destruct Hbox as [i Hi].
    unfold render. fold fd. rewrite Hi. simpl. rewrite H3. simpl.
    eexists. exists i. split; [reflexivity |]. split; reflexivity.
Qed.

Lemma script_raises_on_loss_lines_witness :
  (exists r, In r loss_rows /\ Sales r < Cost r) /\
  render sqrt_floor loss_rows (qz 10) = Raise ValueError.
Proof.
  assert (H : exists r, In r loss_rows /\ Sales r < Cost r).
  { exists (mkRow "ProductB" "DivX" 1 (qz 5) (qz 10) (qz 1)).
    split; [right; left; reflexivity | vm_compute; reflexivity]. }
  split; [exact H |].
  exact (proj1 (proj2 (script_raises_on_loss_lines sqrt_floor loss_rows (qz 10))) H).
Defined.

(* ------------------------------------------------------------------ *)
(** ** Risk labels *)

Lemma risk_level_high (threshold : Qc) (x : num) :
  String.eqb (risk_level threshold x) "High Risk" = fltb x (Fin threshold).
Proof. unfold risk_level. destruct (fltb x (Fin threshold)); reflexivity. Qed.

Lemma high_risk_names_In (rows : list Row) (threshold : Qc) (n : string) :
  In n (map name_of
          (filter (fun d => String.eqb (Risk_Level d) "High Risk")
                  (derive rows threshold))) <->
  exists r, In r rows /\ Product_Name r = n /\
            fltb (gross_margin r) (Fin threshold) = true.
Proof.
  rewrite in_map_iff. split.
  - intros (d & Hn & Hd). apply filter_In in Hd. destruct Hd as [Hd Hr].
    unfold derive in Hd. apply in_map_iff in Hd. destruct Hd as (r & <- & Hin).
    exists r. split; [exact Hin |]. split; [exact Hn |].
    simpl in Hr. rewrite risk_level_high in Hr. exact Hr.
  - intros (r & Hin & Hn & Hr).
    exists (derive_row rows threshold r). split; [exact Hn |].
    apply filter_In. split.
    + unfold derive. apply in_map. exact Hin.
    + simpl. rewrite risk_level_high. exact Hr.
Qed.

Lemma fltb_threshold_mono (x : num) (t1 t2 : Qc) :
  t1 <= t2 -> fltb x (Fin t1) = true -> fltb x (Fin t2) = true.
Proof.
  intros Ht. destruct x as [a| | |]; try (intros H; exact H).
  intros H. apply fltb_fin in H. apply fltb_fin.
  apply (Qclt_le_trans _ _ _ H Ht).
Qed.

(** Raising the margin threshold never lowers the number of high-risk
    products, and that number never exceeds the number of products in
    the filtered set. *)
Theorem high_risk_count_monotone (rows : list Row) (t1 t2 : Qc) :
  t1 <= t2 ->
  (high_risk_count_of (derive rows t1) <= high_risk_count_of (derive rows t2))%nat /\
  (high_risk_count_of (derive rows t2)
   <= List.length (group_keys (map Product_Name rows)))%nat.
Proof.
  intros Ht. unfold high_risk_count_of. split.
  - apply NoDup_incl_length; [apply NoDup_nodup |].
    intros n Hn. apply nodup_In in Hn. apply nodup_In.
    apply high_risk_names_In in Hn. apply high_risk_names_In.
    destruct Hn as (r & Hin & Hname & Hr).
    exists r. split; [exact Hin |]. split; [exact Hname |].
    apply (fltb_threshold_mono _ _ _ Ht Hr).
  - apply NoDup_incl_length; [apply NoDup_nodup |].
    intros n Hn. apply nodup_In in Hn.
    apply high_risk_names_In in Hn. destruct Hn as (r & Hin & Hname & _).
    apply group_keys_In. rewrite <- Hname. apply in_map. exact Hin.
Qed.

Lemma high_risk_count_monotone_witness :
  qz 10 <= qz 50 /\
  (high_risk_count_of (derive ex_rows (qz 10))
   <= high_risk_count_of (derive ex_rows (qz 50)))%nat.
Proof.
  assert (H : qz 10 <= qz 50) by (vm_compute; discriminate).
  split; [exact H |].
  exact (proj1 (high_risk_count_monotone ex_rows (qz 10) (qz 50) H)).
Defined.


Lemma Qcdiv_neg (a s : Qc) : a < 0 -> 0 < s -> a / s < 0.
Proof.
  intros Ha Hs.
  assert (Hs0 : s <> 0) by (apply not_eq_sym, Qclt_not_eq; exact Hs).
  apply Qcnot_le_lt. intros Hge.
  pose proof (Qcmult_le_compat_r _ _ s Hge (Qclt_le_weak _ _ Hs)) as Hmul.
  replace (0 * s) with 0 in Hmul by ring.
  replace (a / s * s) with a in Hmul by (field; exact Hs0).
  apply (Qcle_not_lt _ _ Hmul Ha).
Qed.

Lemma qz_100_pos : 0 < qz 100.
Proof. apply Qclt_alt. vm_compute. reflexivity. Qed.

(** A line sold at a loss (Cost above a positive Sales) has a negative
    margin and is "High Risk" under every threshold of the slider
    (thresholds from 0 upwards). *)
Theorem loss_line_is_high_risk (r : Row) (threshold : Qc) (rows : list Row) :
  0 < Sales r -> Sales r < Cost r -> 0 <= threshold ->
  fltb (gross_margin r) (Fin 0) = true /\
  Risk_Level (derive_row rows threshold r) = "High Risk".
Proof.
  intros Hs Hc Ht.
  assert (Hs0 : Sales r <> 0) by (apply not_eq_sym, Qclt_not_eq; exact Hs).
  assert (Hm : gross_margin r = Fin (gross_profit r / Sales r * qz 100)).
  { unfold gross_margin. rewrite fdiv_fin by exact Hs0. reflexivity. }
  assert (Hneg : gross_profit r / Sales r * qz 100 < 0).
  { replace 0 with (0 * qz 100) by ring.
    apply Qcmult_lt_compat_r; [apply qz_100_pos |].
    apply Qcdiv_neg; [| exact Hs].
    unfold gross_profit. apply Qclt_minus_iff.
    replace (0 + - (Sales r - Cost r)) with (Cost r + - Sales r) by ring.
    exact (proj1 (Qclt_minus_iff _ _) Hc). }
  split.
  - rewrite Hm. apply fltb_fin. exact Hneg.
  - simpl. unfold risk_level. rewrite Hm.
    assert (H : fltb (Fin (gross_profit r / Sales r * qz 100)) (Fin threshold) = true)
      by (apply fltb_fin; apply (Qclt_le_trans _ _ _ Hneg Ht)).
    rewrite H. reflexivity.
Qed.

Lemma loss_line_is_high_risk_witness :
  0 < Sales loss_row /\ Sales loss_row < Cost loss_row /\ 0 <= qz 10 /\
  Risk_Level (derive_row [loss_row] (qz 10) loss_row) = "High Risk".
Proof.
  assert (H1 : 0 < Sales loss_row) by (vm_compute; reflexivity).
  assert (H2 : Sales loss_row < Cost loss_row) by (vm_compute; reflexivity).
  assert (H3 : 0 <= qz 10) by (vm_compute; discriminate).
  split; [exact H1 | split; [exact H2 | split; [exact H3 |]]].
  exact (proj2 (loss_line_is_high_risk loss_row (qz 10) [loss_row] H1 H2 H3)).
Defined.

(** A line with no Sales but a positive Cost has margin minus infinity
    and is "High Risk" under every threshold; with a negative Cost the
    margin is plus infinity and the line is "Safe". *)
Theorem zero_sales_infinite_margin (r : Row) (threshold : Qc) :
  Sales r = 0 ->
  (0 < Cost r ->
   gross_margin r = NInf /\
   risk_level threshold (gross_margin r) = "High Risk") /\
  (Cost r < 0 ->
   gross_margin r = PInf /\
   risk_level threshold (gross_margin r) = "Safe").
Proof.
  intros Hs. unfold gross_margin, gross_profit. rewrite Hs.
  unfold fdiv. rewrite qsign_refl_zero.
  split; intros Hc.
  - assert (E : qsign (0 - Cost r) = Lt).
    { unfold qsign. apply Qclt_alt. apply Qclt_minus_iff.
      replace (0 + - (0 - Cost r)) with (Cost r) by ring. exact Hc. }
    rewrite E. split; reflexivity.
  - assert (E : qsign (0 - Cost r) = Gt).
    { unfold qsign. apply Qcgt_alt. apply Qclt_minus_iff.
      replace (0 - Cost r + - 0) with (0 + - Cost r) by ring.
      exact (proj1 (Qclt_minus_iff _ _) Hc). }
    rewrite E. split; reflexivity.
Qed.

Lemma zero_sales_infinite_margin_witness :
  Sales unsold_row = 0 /\ 0 < Cost unsold_row /\
  gross_margin unsold_row = NInf /\
  risk_level (qz 100) (gross_margin unsold_row) = "High Risk".
Proof.
  assert (H1 : Sales unsold_row = 0) by reflexivity.
  assert (H2 : 0 < Cost unsold_row) by (vm_compute; reflexivity).
  split; [exact H1 | split; [exact H2 |]].
  exact (proj1 (zero_sales_infinite_margin unsold_row (qz 100) H1) H2).
Defined.


(* ------------------------------------------------------------------ *)
(** ** The two top-20% figures *)

Lemma share_zero (T : Qc) : T <> 0 -> share 0 T = Fin 0.
Proof.
  intros HT. rewrite share_fin by exact HT. apply f_equal.
  unfold Qcdiv. ring.
Qed.

Lemma share_self (T : Qc) : T <> 0 -> share T T = Fin (qz 100).
Proof.
  intros HT. rewrite share_fin by exact HT. apply f_equal.
  field. exact HT.
Qed.

(** The insight text and TAB 4 report the same top-20% share as soon as
    there are five products.  With fewer than five products TAB 4 takes
    no entry at all and reports 0% of a non-zero total. *)
Theorem top_20_figures (fd : list DRow) :
  let ranking := profit_summary fd in
  ((5 <= List.length ranking)%nat ->
   dependency_ratio_of ranking = top_20_profit_share_of ranking) /\
  ((List.length ranking < 5)%nat ->
   qsum (map Gross_Profit fd) <> 0 ->
   pareto_top_20_count ranking = 0%Z /\
   top_20_profit_share_of ranking = Fin 0).
Proof.
  intros ranking. split.
  - intros HN. unfold dependency_ratio_of, top_20_profit_share_of.
    rewrite insight_top_20_count_eq, pareto_top_20_count_eq.
    assert (H : (1 <= Z.of_nat (List.length ranking) / 5)%Z)
      by (apply Z.div_le_lower_bound; lia).
    rewrite Z.max_r by exact H. reflexivity.
  - intros HN HT.
    assert (Hc : pareto_top_20_count ranking = 0%Z).
    { rewrite pareto_top_20_count_eq. apply Z.div_small. lia. }
    split; [exact Hc |].
    unfold top_20_profit_share_of. rewrite Hc. simpl.
    apply share_zero. unfold ranking. rewrite profit_summary_total. exact HT.
Qed.

Lemma top_20_figures_witness :
  (5 <= List.length (profit_summary (derive six_rows (qz 10))))%nat /\
  dependency_ratio_of (profit_summary (derive six_rows (qz 10)))
  = top_20_profit_share_of (profit_summary (derive six_rows (qz 10))).
Proof.
  assert (H : (5 <= List.length (profit_summary (derive six_rows (qz 10))))%nat)
    by (vm_compute; lia).
  split; [exact H |].
  exact (proj1 (top_20_figures (derive six_rows (qz 10))) H).
Defined.

Lemma firstn_one_singleton (A : Type) (l : list A) :
  List.length l = 1%nat -> firstn 1 l = l.
Proof.
  destruct l as [|x [|y l]]; simpl; intros H; try discriminate. reflexivity.
Qed.

(** When the filtered set holds a single product with a non-zero total
    profit, the top-20% share of the insight text is 100% and the
    "High Profit Concentration" warning fires. *)
Theorem single_product_concentration (fd : list DRow) :
  List.length (profit_summary fd) = 1%nat ->
  qsum (map Gross_Profit fd) <> 0 ->
  dependency_ratio_of (profit_summary fd) = Fin (qz 100) /\
  fgtb (dependency_ratio_of (profit_summary fd)) (Fin (qz 70)) = true.
Proof.
  intros HN HT.
  assert (Hr : dependency_ratio_of (profit_summary fd) = Fin (qz 100)).
  { unfold dependency_ratio_of, head.
    rewrite insight_top_20_count_eq, HN.
    change (Z.to_nat (Z.max 1 (Z.of_nat 1 / 5))) with 1%nat.
    rewrite firstn_one_singleton by exact HN.
    apply share_self. rewrite profit_summary_total. exact HT. }
  split; [exact Hr |]. rewrite Hr. reflexivity.
Qed.

Lemma single_product_concentration_witness :
  List.length (profit_summary (derive one_product_rows (qz 10))) = 1%nat /\
  qsum (map Gross_Profit (derive one_product_rows (qz 10))) <> 0 /\
  dependency_ratio_of (profit_summary (derive one_product_rows (qz 10)))
  = Fin (qz 100).
Proof.
  assert (H1 : List.length (profit_summary (derive one_product_rows (qz 10)))
               = 1%nat) by reflexivity.
  assert (H2 : qsum (map Gross_Profit (derive one_product_rows (qz 10))) <> 0).
  { intros E. apply (f_equal this) in E. vm_compute in E. discriminate. }
  split; [exact H1 | split; [exact H2 |]].
  exact (proj1 (single_product_concentration _ H1 H2)).
Defined.


(* ------------------------------------------------------------------ *)
(** ** The product and division tables *)

(** The Profit Contribution column of TAB 1 adds up to 100 whenever the
    total Gross Profit is non-zero. *)
Theorem product_contribution_sums_to_100 (sqrt_q : Qc -> Qc) (fd : list DRow) :
  qsum (map Gross_Profit fd) <> 0 ->
  fsum (map ps_Profit_Contribution (product_summary sqrt_q fd)) = Fin (qz 100).
Proof.
  intros HT. unfold product_summary, product_totals.
  rewrite map_map. simpl.
  apply (shares_sum_to_100 _ (fun kg : string * list DRow => group_profit (snd kg))).
  unfold group_profit. rewrite groupby_sum. exact HT.
Qed.

Lemma product_contribution_sums_to_100_witness :
  qsum (map Gross_Profit (derive ex_rows (qz 10))) <> 0 /\
  fsum (map ps_Profit_Contribution
            (product_summary sqrt_floor (derive ex_rows (qz 10))))
  = Fin (qz 100).
Proof.
  assert (H : qsum (map Gross_Profit (derive ex_rows (qz 10))) <> 0).
  { intros E. apply (f_equal this) in E. vm_compute in E. discriminate. }
  split; [exact H |].
  exact (product_contribution_sums_to_100 sqrt_floor _ H).
Defined.

Lemma division_summary_names (fd : list DRow) :
  map ds_Division (division_summary fd) = group_keys (map division_of fd).
Proof.
  unfold division_summary, groupby. rewrite !map_map. simpl. apply map_id.
Qed.

(** TAB 1 has exactly one line per product of the filtered set and
    TAB 2 exactly one line per division; the Sales and Gross Profit of
    such a line are the sums, and its Gross Margin the mean of the
    defined margins, over the lines of that product or division. *)
Theorem one_summary_line_per_key (sqrt_q : Qc -> Qc) (fd : list DRow) :
  NoDup (map ps_Product_Name (product_summary sqrt_q fd)) /\
  (forall k, In k (map ps_Product_Name (product_summary sqrt_q fd))
             <-> In k (map name_of fd)) /\
  (forall s, In s (product_summary sqrt_q fd) ->
             ps_Sales s = qsum (map sales_of (group_of fd (ps_Product_Name s))) /\
             ps_Gross_Profit s
             = qsum (map Gross_Profit (group_of fd (ps_Product_Name s))) /\
             ps_Gross_Margin s = mean_margin fd (ps_Product_Name s)) /\
  NoDup (map ds_Division (division_summary fd)) /\
  (forall k, In k (map ds_Division (division_summary fd))
             <-> In k (map division_of fd)) /\
  (forall s, In s (division_summary fd) ->
             let lines :=
               filter (fun d => String.eqb (division_of d) (ds_Division s)) fd in
             ds_Sales s = qsum (map sales_of lines) /\
             ds_Gross_Profit s = qsum (map Gross_Profit lines) /\
             ds_Gross_Margin s = pd_mean (margins lines)).
Proof.
  rewrite product_summary_names, division_summary_names.
  split; [apply group_keys_NoDup |].
  split; [intros k; apply group_keys_In |].
  split.
  { unfold product_summary, product_totals, groupby. rewrite map_map.
    intros s Hs. apply in_map_iff in Hs. destruct Hs as (k & <- & _).
    simpl. repeat split; reflexivity. }
  split; [apply group_keys_NoDup |].
  split; [intros k; apply group_keys_In |].
  unfold division_summary, groupby. rewrite map_map.
  intros s Hs. apply in_map_iff in Hs. destruct Hs as (k & <- & _).
  simpl. repeat split; reflexivity.
Qed.

Lemma map_fst_combine_same_length (A B : Type) (l : list A) (l' : list B) :
  List.length l = List.length l' -> map fst (combine l l') = l.
Proof.
  revert l'. induction l as [|x l IH]; intros [|y l'] H; simpl in *;
    try reflexivity; try discriminate.
  rewrite IH by congruence. reflexivity.
Qed.

Lemma pareto_ranking (fd : list DRow) :
  map (fun e => (pe_Product_Name e, pe_Gross_Profit e)) (pareto fd)
  = profit_summary fd.
Proof.
  unfold pareto. rewrite map_map. simpl.
  rewrite (map_ext _ (fun kc : string * Qc * Qc => fst kc))
    by (intros [[k v] c]; reflexivity).
  apply map_fst_combine_same_length.
  unfold cumsum. rewrite cumsum_from_length, length_map. reflexivity.
Qed.

Lemma pareto_cumulative_profit (fd : list DRow) :
  map pe_Cumulative_Profit (pareto fd) = cumsum (map snd (profit_summary fd)).
Proof.
  unfold pareto. rewrite map_map. simpl.
  rewrite <- (map_ext snd (fun kc : string * Qc * Qc => snd kc))
    by reflexivity.
  apply map_snd_combine_same_length.
  unfold cumsum. rewrite cumsum_from_length, length_map. reflexivity.
Qed.

Lemma product_summary_profits (sqrt_q : Qc -> Qc) (fd : list DRow) :
  map (fun s => (ps_Product_Name s, ps_Gross_Profit s)) (product_summary sqrt_q fd)
  = agg group_profit (groupby name_of fd).
Proof.
  unfold product_summary, product_totals, agg. rewrite map_map. reflexivity.
Qed.

(** TAB 4 lists the products of TAB 1 with the same Gross Profit, in
    descending order of Gross Profit, and its last Cumulative Profit is
    the total Gross Profit of the filtered set. *)
Theorem pareto_reorders_product_table (sqrt_q : Qc -> Qc) (fd : list DRow) :
  Permutation
    (map (fun e => (pe_Product_Name e, pe_Gross_Profit e)) (pareto fd))
    (map (fun s => (ps_Product_Name s, ps_Gross_Profit s))
         (product_summary sqrt_q fd)) /\
  StronglySorted (fun a b => b <= a) (map pe_Gross_Profit (pareto fd)) /\
  (fd <> [] ->
   last (map pe_Cumulative_Profit (pareto fd)) 0 = qsum (map Gross_Profit fd)).
Proof.
  split.
  { rewrite pareto_ranking, product_summary_profits.
    apply sort_values_desc_perm. }
  split.
  { rewrite <- (map_map (fun e => (pe_Product_Name e, pe_Gross_Profit e)) snd).
    rewrite pareto_ranking.
    pose proof (sort_values_desc_sorted
                  (agg group_profit (groupby name_of fd))) as H.
    fold (profit_summary fd) in H.
    induction H as [|kv t Hss IH Hall]; simpl; constructor.
    - exact IH.
    - apply Forall_map. exact Hall. }
  intros Hne. rewrite pareto_cumulative_profit. unfold cumsum.
  rewrite last_cumsum_from.
  - rewrite profit_summary_total. ring.
  - pose proof (profit_summary_nonempty fd Hne) as HN.
    intros E. apply (f_equal (@List.length Qc)) in E.
    rewrite length_map in E. simpl in E. lia.
Qed.


(* ------------------------------------------------------------------ *)
(** ** Volatility when no product has two lines *)

Lemma dropna_all_nan (l : list num) :
  (forall x, In x l -> x = NaN) -> dropna l = [].
Proof.
  intros H. unfold dropna. apply filter_none.
  intros x Hx. rewrite (H x Hx). reflexivity.
Qed.

Lemma pd_median_all_nan (l : list num) :
  (forall x, In x l -> x = NaN) -> pd_median l = NaN.
Proof.
  intros H. unfold pd_median. rewrite dropna_all_nan by exact H. reflexivity.
Qed.

Lemma pd_mean_all_nan (l : list num) :
  (forall x, In x l -> x = NaN) -> pd_mean l = NaN.
Proof.
  intros H. unfold pd_mean. rewrite dropna_all_nan by exact H. reflexivity.
Qed.

Lemma volatility_values (sqrt_q : Qc -> Qc) (fd : list DRow) (x : num) :
  In x (map snd (volatility sqrt_q fd)) ->
  exists k, In k (map name_of fd) /\
            x = pd_std sqrt_q (margins (group_of fd k)).
Proof.
  intros Hx. apply in_map_iff in Hx. destruct Hx as ([k v] & <- & Hkv).
  unfold volatility in Hkv. apply agg_groupby_In in Hkv.
  destruct Hkv as [Hk ->]. exists k. split; [exact Hk | reflexivity].
Qed.

(** When every product of the filtered set has a single line, every
    Margin Volatility is undefined: the median volatility and the
    average volatility are NaN, every product is labelled "Stable", and
    the comparison behind the "Margin Instability" warning is false. *)
Theorem single_line_products_are_stable (sqrt_q : Qc -> Qc) (fd : list DRow) :
  (forall k, In k (map name_of fd) -> List.length (group_of fd k) = 1%nat) ->
  median_vol sqrt_q fd = NaN /\
  avg_volatility_of sqrt_q fd = NaN /\
  fgtb (avg_volatility_of sqrt_q fd) (pd_std sqrt_q (margins fd)) = false /\
  forall s, In s (product_summary sqrt_q fd) ->
            ps_Margin_Volatility s = NaN /\ ps_Volatility_Risk s = "Stable".
Proof.
  intros Hone.
  assert (Hnan : forall s, In s (product_summary sqrt_q fd) ->
                           ps_Margin_Volatility s = NaN).
  { intros s Hs. destruct (product_summary_In sqrt_q fd s Hs) as (Hk & Hv & _).
    rewrite Hv. apply pd_std_short. unfold margins. rewrite length_map.
    rewrite Hone; [lia |]. apply group_keys_In. exact Hk. }
  assert (Hmed : median_vol sqrt_q fd = NaN).
  { unfold median_vol. rewrite margin_volatility_column_eq.
    apply pd_median_all_nan. intros x Hx. apply in_map_iff in Hx.
    destruct Hx as (s & <- & Hs). apply Hnan. exact Hs. }
  assert (Havg : avg_volatility_of sqrt_q fd = NaN).
  { unfold avg_volatility_of. apply pd_mean_all_nan. intros x Hx.
    destruct (volatility_values sqrt_q fd x Hx) as (k & Hk & ->).
    apply pd_std_short. unfold margins. rewrite length_map.
    rewrite (Hone k Hk). lia. }
  split; [exact Hmed |]. split; [exact Havg |].
  split; [rewrite Havg; unfold fgtb; apply fltb_nan_r |].
  intros s Hs. split; [apply Hnan; exact Hs |].
  destruct (product_summary_In sqrt_q fd s Hs) as (_ & _ & Hr).
  rewrite Hr, (Hnan s Hs). unfold volatility_risk, fgtb.
  rewrite fltb_nan_r. reflexivity.
Qed.

Lemma single_line_products_are_stable_witness :
  (forall k, In k (map name_of (derive six_rows (qz 10))) ->
             List.length (group_of (derive six_rows (qz 10)) k) = 1%nat) /\
  median_vol sqrt_floor (derive six_rows (qz 10)) = NaN.
Proof.
  assert (H : forall k, In k (map name_of (derive six_rows (qz 10))) ->
                        List.length (group_of (derive six_rows (qz 10)) k) = 1%nat).
  { intros k Hk. simpl in Hk.
    destruct Hk as [<- | [<- | [<- | [<- | [<- | [<- | []]]]]]]; reflexivity. }
  split; [exact H |].
  exact (proj1 (single_line_products_are_stable sqrt_floor _ H)).
Defined.

(* ------------------------------------------------------------------ *)
(** ** Totals *)

Lemma qsum_minus (A : Type) (f g : A -> Qc) (l : list A) :
  qsum (map (fun x => f x - g x) l) = qsum (map f l) - qsum (map g l).
Proof.
  induction l as [|x l IH]; simpl.
  - ring.
  - rewrite IH. ring.
Qed.

(** The Total Profit KPI is the Total Sales KPI minus the summed Cost
    of the filtered set. *)
Theorem total_profit_is_sales_minus_cost (rows : list Row) :
  total_profit rows = total_sales rows - qsum (map Cost rows).
Proof.
  unfold total_profit, total_sales, gross_profit. apply qsum_minus.
Qed.

(* ------------------------------------------------------------------ *)
(** ** The top entries hold at least their proportional share *)

Lemma len_cons (A : Type) (x : A) (l : list A) : len (x :: l) = len l + 1.
Proof.
  unfold len, qz. apply Qc_is_canon.
  change (Qred (inject_Z (Z.of_nat (S (List.length l))))
          == Qred (Qred (inject_Z (Z.of_nat (List.length l))) + Qred 1))%Q.
  rewrite !Qred_correct. rewrite Nat2Z.inj_succ. unfold Z.succ.
  rewrite inject_Z_plus. reflexivity.
Qed.

Lemma len_nil (A : Type) : len (@nil A) = 0.
Proof. reflexivity. Qed.

Lemma qsum_le_len (B : list Qc) (a : Qc) :
  (forall y, In y B -> y <= a) -> qsum B <= len B * a.
Proof.
  induction B as [|y B IH]; intros H.
  - rewrite len_nil. simpl. replace (0 * a) with 0 by ring. apply Qcle_refl.
  - rewrite len_cons. simpl.
    replace ((len B + 1) * a) with (a + len B * a) by ring.
    apply Qcplus_le_compat.
    + apply H. left. reflexivity.
    + apply IH. intros z Hz. apply H. right. exact Hz.
Qed.

Lemma cross_sums (A B : list Qc) :
  (forall x y, In x A -> In y B -> y <= x) ->
  len A * qsum B <= len B * qsum A.
Proof.
  induction A as [|a A IH]; intros H.
  - rewrite len_nil. simpl.
    replace (0 * qsum B) with 0 by ring.
    replace (len B * 0) with 0 by ring. apply Qcle_refl.
  - rewrite len_cons. simpl.
    replace ((len A + 1) * qsum B) with (qsum B + len A * qsum B) by ring.
    replace (len B * (a + qsum A)) with (len B * a + len B * qsum A) by ring.
    apply Qcplus_le_compat.
    + apply qsum_le_len. intros y Hy. apply H; [left; reflexivity | exact Hy].
    + apply IH. intros x y Hx Hy. apply H; [right; exact Hx | exact Hy].
Qed.

Lemma in_skipn (A : Type) (k : nat) (l : list A) (y : A) :
  In y (skipn k l) -> In y l.
Proof.
  intros H. rewrite <- (firstn_skipn k l). apply in_or_app. right. exact H.
Qed.

Lemma sorted_firstn_skipn (A : Type) (R : A -> A -> Prop) (l : list A) :
  StronglySorted R l ->
  forall k x y, In x (firstn k l) -> In y (skipn k l) -> R x y.
Proof.
  induction 1 as [|a l Hss IH Hall]; intros k x y Hx Hy.
  - destruct k; destruct Hx.
  - destruct k as [|k]; simpl in Hx, Hy; [destruct Hx |].
    destruct Hx as [<- | Hx].
    + rewrite Forall_forall in Hall. apply Hall.
      apply (in_skipn _ k l y Hy).
    + apply (IH k); assumption.
Qed.

Lemma len_app (A : Type) (l1 l2 : list A) : len (l1 ++ l2) = len l1 + len l2.
Proof.
  induction l1 as [|x l1 IH].
  - simpl. rewrite len_nil. ring.
  - change (len (x :: (l1 ++ l2)) = len (x :: l1) + len l2).
    rewrite !len_cons, IH. ring.
Qed.

(** In a list in descending order the first [k] entries hold at least
    [k/N] of the sum, whatever the signs. *)
Lemma top_entries_proportional (vals : list Qc) (k : nat) :
  StronglySorted (fun a b => b <= a) vals ->
  len (firstn k vals) * qsum vals <= len vals * qsum (firstn k vals).
Proof.
  intros Hs.
  pose proof (cross_sums (firstn k vals) (skipn k vals)
                (sorted_firstn_skipn _ _ _ Hs k)) as H.
  rewrite <- (firstn_skipn k vals) at 2 3.
  rewrite qsum_app, len_app.
  set (sA := qsum (firstn k vals)) in *. set (sB := qsum (skipn k vals)) in *.
  set (lA := len (firstn k vals)) in *. set (lB := len (skipn k vals)) in *.
  replace (lA * (sA + sB)) with (lA * sA + lA * sB) by ring.
  replace ((lA + lB) * sA) with (lA * sA + lB * sA) by ring.
  apply Qcplus_le_compat; [apply Qcle_refl | exact H].
Qed.

Lemma qz_pos (z : Z) : (0 < z)%Z -> 0 < qz z.
Proof.
  intros Hz. unfold Qclt, qz.
  change (0%Q < Qred (inject_Z z))%Q.
  rewrite Qred_correct. unfold Qlt, inject_Z. simpl. lia.
Qed.

Lemma ranking_values_sorted (fd : list DRow) :
  StronglySorted (fun a b => b <= a) (map snd (profit_summary fd)).
Proof.
  pose proof (sort_values_desc_sorted
                (agg group_profit (groupby name_of fd))) as H.
  fold (profit_summary fd) in H.
  induction H as [|kv t Hss IH Hall]; simpl; constructor.
  - exact IH.
  - apply Forall_map. exact Hall.
Qed.

(** With a positive total Gross Profit, the top-20% share of the insight
    text is at least the proportional share k/N of the k entries it
    takes out of the N ranked products. *)
Theorem top_share_at_least_proportional (fd : list DRow) :
  0 < qsum (map Gross_Profit fd) ->
  let ranking := profit_summary fd in
  let k := insight_top_20_count ranking in
  fleb (Fin (qz k / len ranking * qz 100)) (dependency_ratio_of ranking) = true.
Proof.
  intros HT ranking k.
  assert (HT0 : qsum (map Gross_Profit fd) <> 0)
    by (apply not_eq_sym, Qclt_not_eq; exact HT).
  assert (Hne : fd <> []).
  { intros E. apply HT0. rewrite E. reflexivity. }
  pose proof (profit_summary_nonempty fd Hne) as HN. fold ranking in HN.
  assert (Hk : k = Z.max 1 (Z.of_nat (List.length ranking) / 5))
    by apply insight_top_20_count_eq.
  assert (Hkb : (1 <= k <= Z.of_nat (List.length ranking))%Z).
  { pose proof (Z.div_le_upper_bound (Z.of_nat (List.length ranking)) 5
                  (Z.of_nat (List.length ranking)) ltac:(lia) ltac:(lia)).
    lia. }
  assert (Hlen : 0 < len ranking) by (apply qz_pos; exact HN).
  assert (Hlen0 : len ranking <> 0)
    by (apply not_eq_sym, Qclt_not_eq; exact Hlen).
  pose proof (top_entries_proportional (map snd ranking) (Z.to_nat k)
                (ranking_values_sorted fd)) as Hprop.
  assert (Hlk : len (firstn (Z.to_nat k) (map snd ranking)) = qz k).
  { unfold len. rewrite length_firstn, length_map.
    rewrite Nat.min_l by lia. rewrite Z2Nat.id by lia. reflexivity. }
  rewrite Hlk in Hprop.
  assert (Hlv : len (map snd ranking) = len ranking)
    by (unfold len; rewrite length_map; reflexivity).
  rewrite Hlv, firstn_map in Hprop.
  unfold ranking in Hprop at 1. rewrite profit_summary_total in Hprop.
  fold ranking in Hprop.
  unfold dependency_ratio_of, head. fold k.
  unfold ranking at 3. rewrite profit_summary_total. fold ranking.
  set (sA := qsum (map snd (firstn (Z.to_nat k) ranking))) in *.
  set (T := qsum (map Gross_Profit fd)) in *.
  rewrite share_fin by exact HT0.
  apply fleb_fin. apply Qcmult_le_compat_r; [| apply qz_100_nonneg].
  assert (Hz : 0 < len ranking * T).
  { replace 0 with (0 * T) by ring. apply Qcmult_lt_compat_r; assumption. }
  apply (Qcmult_lt_0_le_reg_r _ _ (len ranking * T) Hz).
  replace (qz k / len ranking * (len ranking * T)) with (qz k * T)
    by (field; exact Hlen0).
  replace (sA / T * (len ranking * T)) with (len ranking * sA)
    by (field; exact HT0).
  exact Hprop.
Qed.

Lemma top_share_at_least_proportional_witness :
  0 < qsum (map Gross_Profit (derive ex_rows (qz 10))) /\
  fleb (Fin (qz (insight_top_20_count (profit_summary (derive ex_rows (qz 10))))
             / len (profit_summary (derive ex_rows (qz 10))) * qz 100))
       (dependency_ratio_of (profit_summary (derive ex_rows (qz 10)))) = true.
Proof.
  assert (H : 0 < qsum (map Gross_Profit (derive ex_rows (qz 10))))
    by (vm_compute; reflexivity).
  split; [exact H |].
  exact (top_share_at_least_proportional (derive ex_rows (qz 10)) H).
Defined.

(* ------------------------------------------------------------------ *)
(** ** Revenue contribution of a line *)

Lemma elem_le_qsum (l : list Qc) (a : Qc) :
  (forall x, In x l -> 0 <= x) -> In a l -> a <= qsum l.
Proof.
  induction l as [|x l IH]; intros Hpos Hin; [destruct Hin |].
  simpl. destruct Hin as [-> | Hin].
  - replace a with (a + 0) at 1 by ring.
    apply Qcplus_le_compat; [apply Qcle_refl |].
    apply qsum_nonneg. intros y Hy. apply Hpos. right. exact Hy.
  - replace a with (0 + a) by ring.
    apply Qcplus_le_compat.
    + apply Hpos. left. reflexivity.
    + apply IH; [| exact Hin]. intros y Hy. apply Hpos. right. exact Hy.
Qed.

(** When no line has negative Sales and Total Sales is positive, the
    Revenue Contribution of every line is a percentage between 0 and
    100. *)
Theorem revenue_contribution_bounds (rows : list Row) (threshold : Qc) :
  (forall r, In r rows -> 0 <= Sales r) ->
  0 < total_sales rows ->
  forall d, In d (derive rows threshold) ->
            exists p, Revenue_Contribution d = Fin p /\ 0 <= p /\ p <= qz 100.
Proof.
  intros Hpos HT d Hd. unfold derive in Hd. apply in_map_iff in Hd.
  destruct Hd as (r & <- & Hr). simpl. unfold revenue_contribution.
  assert (HT0 : total_sales rows <> 0)
    by (apply not_eq_sym, Qclt_not_eq; exact HT).
  fold (share (Sales r) (total_sales rows)). rewrite share_fin by exact HT0.
  eexists. split; [reflexivity |].
  set (T := total_sales rows) in *. set (s := Sales r).
  assert (Hs : 0 <= s) by (apply Hpos; exact Hr).
  assert (HsT : s <= T).
  { unfold s, T, total_sales. apply elem_le_qsum.
    - intros x Hx. apply in_map_iff in Hx. destruct Hx as (r' & <- & Hr').
      apply Hpos. exact Hr'.
    - apply in_map. exact Hr. }
  split.
  - replace 0 with (0 * qz 100) by ring.
    apply Qcmult_le_compat_r; [| apply qz_100_nonneg].
    apply (Qcmult_lt_0_le_reg_r _ _ T HT).
    replace (0 * T) with 0 by ring.
    replace (s / T * T) with s by (field; exact HT0). exact Hs.
  - replace (qz 100) with (1 * qz 100) at 2 by ring.
    apply Qcmult_le_compat_r; [| apply qz_100_nonneg].
    apply (Qcmult_lt_0_le_reg_r _ _ T HT).
    replace (1 * T) with T by ring.
    replace (s / T * T) with s by (field; exact HT0). exact HsT.
Qed.

Lemma revenue_contribution_bounds_witness :
  (forall r, In r ex_rows -> 0 <= Sales r) /\
  0 < total_sales ex_rows /\
  forall d, In d (derive ex_rows (qz 10)) ->
            exists p, Revenue_Contribution d = Fin p /\ 0 <= p /\ p <= qz 100.
Proof.
  assert (H1 : forall r, In r ex_rows -> 0 <= Sales r).
  { intros r Hr. simpl in Hr.
    destruct Hr as [<- | [<- | [<- | []]]]; vm_compute; discriminate. }
  assert (H2 : 0 < total_sales ex_rows) by (vm_compute; reflexivity).
  split; [exact H1 | split; [exact H2 |]].
  exact (revenue_contribution_bounds ex_rows (qz 10) H1 H2).
Defined.

(* ------------------------------------------------------------------ *)
(** ** Selecting more divisions *)

(** Selecting more divisions, with the date range and the search string
    unchanged, never removes a line from the filtered set. *)
Theorem more_divisions_keep_lines (df : list Row) (sb sb' : Sidebar) :
  date_range sb = date_range sb' ->
  product_search sb = product_search sb' ->
  incl (division sb) (division sb') ->
  re_compile (product_search sb) <> None ->
  exists out out',
    apply_filters df sb = Some out /\
    apply_filters df sb' = Some out' /\
    incl out out'.
Proof.
  intros Hd Hs Hincl Hpat.
  destruct (re_compile (product_search sb)) as [p|] eqn:Ep; [| contradiction].
  assert (Ep' : re_compile (product_search sb') = Some p) by (rewrite <- Hs; exact Ep).
  exists (filter (passes sb p) df), (filter (passes sb' p) df).
  split; [apply apply_filters_passes; exact Ep |].
  split; [apply apply_filters_passes; exact Ep' |].
  intros r Hr. apply filter_In in Hr. destruct Hr as [Hin Hp].
  apply filter_In. split; [exact Hin |].
  unfold passes in *. rewrite <- Hd, <- Hs.
  apply andb_true_iff in Hp. destruct Hp as [Hp Ht].
  apply andb_true_iff in Hp. destruct Hp as [Hdate Hdiv].
  rewrite Hdate, Ht. simpl. rewrite andb_true_r.
  apply isin_In. apply Hincl. apply isin_In. exact Hdiv.
Qed.

Lemma more_divisions_keep_lines_witness :
  incl (division divx_sb) (division ex_sb) /\
  exists out out',
    apply_filters ex_rows divx_sb = Some out /\
    apply_filters ex_rows ex_sb = Some out' /\
    incl out out'.
Proof.
  assert (H : incl (division divx_sb) (division ex_sb)).
  { intros k Hk. simpl in Hk. destruct Hk as [<- | []]. left. reflexivity. }
  split; [exact H |].
  apply (more_divisions_keep_lines ex_rows divx_sb ex_sb);
    try reflexivity; try exact H.
  simpl. discriminate.
Defined.

(* ------------------------------------------------------------------ *)
(** ** The Pareto table as the script reaches it *)

Lemma ranking_nonneg (fd : list DRow) :
  (forall x, In x fd -> 0 <= Gross_Profit x) ->
  forall kv, In kv (profit_summary fd) -> 0 <= snd kv.
Proof.
  intros Hnn [k v] Hkv.
  apply (Permutation_in _ (sort_values_desc_perm _)) in Hkv.
  apply agg_groupby_In in Hkv. destruct Hkv as [_ ->]. simpl.
  unfold group_profit. apply qsum_nonneg.
  intros x Hx. apply in_map_iff in Hx. destruct Hx as (d & <- & Hd).
  apply filter_In in Hd. apply Hnn. apply Hd.
Qed.

(** C4, as stated, fails on a set whose total Gross Profit is zero: the
    script reaches TAB 4 on two products sold at cost, and every
    Cumulative % is 0/0, so the last one is not 100 and the column is
    not non-decreasing. *)
Lemma cumulative_pct_counterexample :
  exists d,
    app sqrt_floor zero_total_rows ex_sb = Some (Ok d) /\
    filtered_df d <> [] /\
    map pe_Cumulative_pct (tab4_pareto d) = [NaN; NaN] /\
    last (map pe_Cumulative_pct (tab4_pareto d)) NaN <> Fin (qz 100) /\
    nondecreasing (map pe_Cumulative_pct (tab4_pareto d)) = false.
Proof.
  eexists. split; [reflexivity |].
  split; [discriminate |].
  split; [reflexivity |].
  split; [discriminate | reflexivity].
Qed.

(** C4 (amended): whenever the script reaches TAB 4 (it raises before,
    in the scatter plot of TAB 3, as soon as a line has a negative Gross
    Profit) and the total Gross Profit is non-zero, the Cumulative %
    column is non-decreasing from first to last entry and its final
    value is 100. *)
Theorem cumulative_pct_sound
        (sqrt_q : Qc -> Qc) (rows : list Row) (threshold : Qc) (d : Dashboard) :
  render sqrt_q rows threshold = Ok d ->
  total_profit rows <> 0 ->
  nondecreasing (map pe_Cumulative_pct (tab4_pareto d)) = true /\
  last (map pe_Cumulative_pct (tab4_pareto d)) NaN = Fin (qz 100).
Proof.
  intros Hd HT.
  destruct (render_ok_inv _ _ _ _ Hd) as (Hnn & _ & Hp).
  rewrite Hp. fold (cumulative_pct (derive rows threshold)).
  assert (HT' : qsum (map Gross_Profit (derive rows threshold)) <> 0).
  { unfold derive. rewrite map_map. exact HT. }
  destruct (cumulative_pct_of_nonneg _ HT') as [Hlast Hmono].
  split; [| exact Hlast].
  apply Hmono. apply ranking_nonneg. exact Hnn.
Qed.

Lemma cumulative_pct_sound_witness :
  exists d,
    render sqrt_floor ex_rows (qz 10) = Ok d /\
    total_profit ex_rows <> 0 /\
    nondecreasing (map pe_Cumulative_pct (tab4_pareto d)) = true /\
    last (map pe_Cumulative_pct (tab4_pareto d)) NaN = Fin (qz 100).
Proof.
  eexists.
  assert (H : total_profit ex_rows <> 0).
  { intros E. apply (f_equal this) in E. vm_compute in E. discriminate. }
  split; [reflexivity |]. split; [exact H |].
  exact (cumulative_pct_sound sqrt_floor ex_rows (qz 10) _ eq_refl H).
Defined.
